(** * ModifierNode: a graph node hosting one modifier (effect unit)

    Shallow embedding of
    [modules/tracktion_engine/playback/graph/tracktion_ModifierNode.cpp].

    The node owns an upstream node, shares a modifier with the rest of the
    edit, and borrows a track mute state, a play head state or a render
    context provider.  Those collaborators live outside the node and change
    between blocks, so they are kept in a [World] that every method reads
    through the addresses the node stores; a null pointer is [None].

    Numbers are modelled as the code has them: [int], [int64_t] and
    [size_t] values as [Z], [double] and [float] values as IEEE binary64
    primitive floats (every binary32 sample is a binary64 value and the
    node only moves samples, it never computes with them). *)

From Stdlib Require Import ZArith List Bool String Floats Lia.
Import ListNotations.

Open Scope Z_scope.

(** ** Values exchanged with the collaborators *)

Definition Addr := nat.
Definition double := float.
Definition Sample := float.

(** [tracktion_graph::NodeProperties]. *)
Record NodeProperties := mkNodeProperties {
  hasAudio : bool;
  hasMidi : bool;
  numberOfChannels : Z;
  latencyNumSamples : Z;
  nodeID : Z
}.

(** A [choc::buffer::ChannelArrayView<float>]: a frame count and one list of
    samples per channel. *)
Record AudioBlock := mkAudioBlock {
  numFrames : nat;
  channels : list (list Sample)
}.

Definition getNumChannels (b : AudioBlock) : nat := List.length (channels b).
Definition getNumFrames (b : AudioBlock) : nat := numFrames b.

(** Every channel of a view holds [numFrames] samples. *)
Definition wellFormed (b : AudioBlock) : Prop :=
  Forall (fun c => List.length c = numFrames b) (channels b).

(** A [juce::AudioBuffer<float>]. *)
Record AudioBuffer := mkAudioBuffer {
  bufferNumSamplesOf : Z;
  bufferChannels : list (list Sample)
}.

Definition getNumSamples (b : AudioBuffer) : Z := bufferNumSamplesOf b.
Definition bufferGetNumChannels (b : AudioBuffer) : Z :=
  Z.of_nat (List.length (bufferChannels b)).

Record MidiMessage := mkMidiMessage {
  midiData : list Z;
  timeStamp : double
}.

(** [tracktion_engine::MidiMessageArray]: the events plus the all-notes-off
    flag. *)
Record MidiMessageArray := mkMidiMessageArray {
  isAllNotesOff : bool;
  messages : list MidiMessage
}.

Definition setAllNotesOff (m : MidiMessageArray) : MidiMessageArray :=
  {| isAllNotesOff := true; messages := messages m |}.

Record AudioAndMidiBuffer := mkAudioAndMidiBuffer {
  audio : AudioBlock;
  midi : MidiMessageArray
}.

(** [tracktion_graph::Node::ProcessContext]; [referenceSampleRange] is a
    [juce::Range<int64_t>], kept as its start and end. *)
Record ProcessContext := mkProcessContext {
  referenceSampleRange : Z * Z;
  buffers : AudioAndMidiBuffer
}.

Definition getStart (r : Z * Z) : Z := fst r.

Record PlaybackInitialisationInfo := mkPlaybackInitialisationInfo {
  info_sampleRate : double;
  info_blockSize : Z
}.

(** Modelled from the spec: the channel layout of a render context is a
    [juce::AudioChannelSet], whose declaration is not part of this file; only
    the call [canonicalChannelSet (numChannels)] is made on it. *)
Inductive AudioChannelSet :=
| canonicalChannelSet (numChannels : Z)
| customChannelSet (bits : list bool).

(** [tracktion_engine::PluginRenderContext], with its eleven members in the
    order of the aggregate built by [getPluginRenderContext].  The two
    pointers carry the contents of what they point to; a null pointer is
    [None]. *)
Record PluginRenderContext := mkPluginRenderContext {
  rc_destBuffer : option AudioBuffer;
  rc_destBufferChannels : AudioChannelSet;
  rc_bufferStartSample : Z;
  rc_bufferNumSamples : Z;
  rc_bufferForMidiMessages : option MidiMessageArray;
  rc_midiBufferOffset : double;
  rc_editTime : double;
  rc_isPlaying : bool;
  rc_isScrubbing : bool;
  rc_isRendering : bool;
  rc_allowBypassedProcessing : bool
}.

(** ** The collaborators *)

(** Modelled from the spec: the upstream [Node] is declared outside this
    file; it is seen through the two calls the modifier node makes on it,
    its properties and the output it has already computed for the block. *)
Record Node := mkNode {
  Node_getNodeProperties : NodeProperties;
  Node_getProcessedOutput : AudioAndMidiBuffer
}.

(** Modelled from the spec: the mute-state policy, declared outside this
    file, answers three questions for the current block. *)
Record TrackMuteState := mkTrackMuteState {
  shouldTrackContentsBeProcessed : bool;
  shouldTrackBeAudible : bool;
  wasJustMuted : bool
}.

(** Modelled from the spec: the play head, declared outside this file, maps
    a reference sample position to a timeline position, in samples, and
    tells whether it is playing and whether the user is dragging it. *)
Record PlayHead := mkPlayHead {
  referenceSamplePositionToTimelinePosition : Z -> Z;
  isPlaying : bool;
  isUserDragging : bool
}.

(** Modelled from the spec: the play head state, declared outside this
    file, holds the play head and tells whether it jumped in this block. *)
Record PlayHeadState := mkPlayHeadState {
  playHead : PlayHead;
  didPlayheadJump : bool
}.

(** Modelled from the spec: the alternate context provider, declared
    outside this file, hands out its current render context. *)
Record InputProvider := mkInputProvider {
  getContext : PluginRenderContext
}.

(** Modelled from the spec: the [Modifier] class is declared outside this
    file.  The node uses the members below; [reportedLatencySamples] is the
    latency the spec's effect-unit contract lists, and no line of the node
    reads it.  [applyToBuffer] receives the render context and yields the
    unit's next state together with the contents, after the call, of the
    destination buffer and of the MIDI list the context points to. *)
Class Modifier (M : Type) := {
  baseClassInitialise : M -> double -> Z -> M;
  baseClassDeinitialise : M -> M;
  baseClassNeedsInitialising : M -> bool;
  applyToBuffer :
    M -> PluginRenderContext -> M * option AudioBuffer * option MidiMessageArray;
  getAudioInputNames : M -> list string;
  getMidiInputNames : M -> list string;
  itemID_getRawID : M -> Z;
  enabledParam : M -> bool;
  reportedLatencySamples : M -> Z
}.

(** Calls the node makes on a modifier, recorded in the order they happen. *)
Inductive ModifierCall :=
| CallInitialise (m : Addr) (sampleRateToUse : double) (blockSizeToUse : Z)
| CallDeinitialise (m : Addr)
| CallApplyToBuffer (m : Addr) (rc : PluginRenderContext).

Definition isDeinitialiseOf (a : Addr) (c : ModifierCall) : bool :=
  match c with
  | CallDeinitialise m => Nat.eqb m a
  | _ => false
  end.

Definition countDeinitialise (a : Addr) (cs : list ModifierCall) : nat :=
  List.length (filter (isDeinitialiseOf a) cs).

(** ** Helpers declared outside this file *)

(** The [int] or [int64_t] to [double] conversion of C++: the nearest
    binary64 value. *)
Definition double_of_Z (z : Z) : double :=
  SF2Prim (binary_normalize prec emax z 0 false).

(** Modelled from the spec: [tracktion_graph::sampleToTime], the spec's
    [toSeconds (samples, sampleRate)], is the sample count divided by the
    sample rate. *)
Definition sampleToTime (samplePosition : Z) (sampleRateToUse : double) : double :=
  PrimFloat.div (double_of_Z samplePosition) sampleRateToUse.

(** The cast [(size_t)] on a 64-bit target. *)
Definition size_t_cast (z : Z) : Z := z mod 2 ^ 64.

Definition jmax (a b : Z) : Z := if a <? b then b else a.

(** Modelled from the spec: [getChannelRange ({ start, end })] of a view,
    defined outside this file, is the view of the channels from [start] up
    to, not including, [end]. *)
Definition getChannelRange (b : AudioBlock) (first last : nat) : AudioBlock :=
  {| numFrames := numFrames b;
     channels := firstn (last - first) (skipn first (channels b)) |}.

(** Sample by sample, the source is written over the start of the
    destination channel. *)
Fixpoint copySamples (dest src : list Sample) : list Sample :=
  match src, dest with
  | s :: src', _ :: dest' => s :: copySamples dest' src'
  | _, _ => dest
  end.

Fixpoint copyChannels (dest src : list (list Sample)) : list (list Sample) :=
  match src, dest with
  | s :: src', d :: dest' => copySamples d s :: copyChannels dest' src'
  | _, _ => dest
  end.

(** Modelled from the spec: [choc::buffer::copy (dest, source)] is defined
    outside this file.  It copies the channels of the source verbatim,
    channel for channel and frame for frame, into the destination; the
    destination keeps its shape, and what the source does not cover is left
    as it was. *)
Definition choc_copy (dest src : AudioBlock) : AudioBlock :=
  {| numFrames := numFrames dest;
     channels := copyChannels (channels dest) (channels src) |}.

(** Modelled from the spec: [tracktion_graph::createAudioBuffer], defined
    outside this file, makes a [juce::AudioBuffer] that refers to the memory
    of the view, so that the modifier processes the output block in
    place. *)
Definition createAudioBuffer (b : AudioBlock) : AudioBuffer :=
  {| bufferNumSamplesOf := Z.of_nat (numFrames b);
     bufferChannels := channels b |}.

(** The view again, once the buffer that refers to its memory was written. *)
Definition viewAfter (b : AudioBlock) (written : AudioBuffer) : AudioBlock :=
  {| numFrames := numFrames b; channels := bufferChannels written |}.

(** Modelled from the spec: [MidiMessageArray::copyFrom] is defined outside
    this file; it replaces the receiver with a copy of the source list. *)
Definition copyFrom (receiver source : MidiMessageArray) : MidiMessageArray :=
  source.

(** ** The node *)

Section ModifierNodeModel.

Context {M : Type} {modifierClass : Modifier M}.

(** What the pointers of a node point to, at one moment, and the calls made
    on modifiers so far. *)
Record World := mkWorld {
  nodes : Addr -> Node;
  modifiers : Addr -> M;
  trackMuteStates : Addr -> TrackMuteState;
  playHeadStates : Addr -> PlayHeadState;
  inputProviders : Addr -> InputProvider;
  calls : list ModifierCall
}.

(** A call was made on the modifier at [a]: its state is now [m], and the
    call is recorded. *)
Definition modifierCalled (w : World) (a : Addr) (m : M) (c : ModifierCall) : World :=
  {| nodes := nodes w;
     modifiers := fun x => if Nat.eqb x a then m else modifiers w x;
     trackMuteStates := trackMuteStates w;
     playHeadStates := playHeadStates w;
     inputProviders := inputProviders w;
     calls := calls w ++ [c] |}.

(** The members of [ModifierNode].  [input] and [modifier] are never null
    (the constructors assert it). *)
Record ModifierNode := mkModifierNode {
  input : Addr;
  modifier : Addr;
  audioRenderContextProvider : option Addr;
  trackMuteState : option Addr;
  playHeadState : option Addr;
  isRendering : bool;
  isInitialised : bool;
  sampleRate : double;
  automationAdjustmentTime : double;
  midiMessageArray : MidiMessageArray
}.

Definition withMidiMessageArray (n : ModifierNode) (m : MidiMessageArray) : ModifierNode :=
  {| input := input n;
     modifier := modifier n;
     audioRenderContextProvider := audioRenderContextProvider n;
     trackMuteState := trackMuteState n;
     playHeadState := playHeadState n;
     isRendering := isRendering n;
     isInitialised := isInitialised n;
     sampleRate := sampleRate n;
     automationAdjustmentTime := automationAdjustmentTime n;
     midiMessageArray := m |}.

Definition withAutomationAdjustmentTime (n : ModifierNode) (t : double) : ModifierNode :=
  {| input := input n;
     modifier := modifier n;
     audioRenderContextProvider := audioRenderContextProvider n;
     trackMuteState := trackMuteState n;
     playHeadState := playHeadState n;
     isRendering := isRendering n;
     isInitialised := isInitialised n;
     sampleRate := sampleRate n;
     automationAdjustmentTime := t;
     midiMessageArray := midiMessageArray n |}.

(** [ModifierNode::initialiseModifier]. *)
Definition initialiseModifier (n : ModifierNode) (w : World)
    (sampleRateToUse : double) (blockSizeToUse : Z) : ModifierNode * World :=
  let n1 :=
    {| input := input n;
       modifier := modifier n;
       audioRenderContextProvider := audioRenderContextProvider n;
       trackMuteState := trackMuteState n;
       playHeadState := playHeadState n;
       isRendering := isRendering n;
       isInitialised := isInitialised n;
       sampleRate := sampleRateToUse;
       automationAdjustmentTime := automationAdjustmentTime n;
       midiMessageArray := midiMessageArray n |} in
  let w1 :=
    modifierCalled w (modifier n1)
      (baseClassInitialise (modifiers w (modifier n1)) (sampleRate n1) blockSizeToUse)
      (CallInitialise (modifier n1) (sampleRate n1) blockSizeToUse) in
  ({| input := input n1;
      modifier := modifier n1;
      audioRenderContextProvider := audioRenderContextProvider n1;
      trackMuteState := trackMuteState n1;
      playHeadState := playHeadState n1;
      isRendering := isRendering n1;
      isInitialised := true;
      sampleRate := sampleRate n1;
      automationAdjustmentTime := automationAdjustmentTime n1;
      midiMessageArray := midiMessageArray n1 |}, w1).

(** Modelled from the spec: the default member initialisers are in the
    class declaration, outside this file.  A member a constructor does not
    name is a null pointer, [false], a zero time offset or an empty MIDI
    list: the mute state and play head on one side and the context provider
    on the other exclude each other for the whole life of the node. *)
Definition defaultMembers (inputNode modifierToProcess : Addr) : ModifierNode :=
  {| input := inputNode;
     modifier := modifierToProcess;
     audioRenderContextProvider := None;
     trackMuteState := None;
     playHeadState := None;
     isRendering := false;
     isInitialised := false;
     sampleRate := 44100%float;
     automationAdjustmentTime := 0%float;
     midiMessageArray := {| isAllNotesOff := false; messages := [] |} |}.

(** The constructor taking a track mute state (which may be null) and a play
    head state (a reference). *)
Definition ModifierNode_withPlayHead (inputNode modifierToProcess : Addr)
    (sampleRateToUse : double) (blockSizeToUse : Z)
    (trackMuteStateToUse : option Addr) (playHeadStateToUse : Addr)
    (rendering : bool) (w : World) : ModifierNode * World :=
  let d := defaultMembers inputNode modifierToProcess in
  initialiseModifier
    {| input := inputNode;
       modifier := modifierToProcess;
       audioRenderContextProvider := audioRenderContextProvider d;
       trackMuteState := trackMuteStateToUse;
       playHeadState := Some playHeadStateToUse;
       isRendering := rendering;
       isInitialised := isInitialised d;
       sampleRate := sampleRate d;
       automationAdjustmentTime := automationAdjustmentTime d;
       midiMessageArray := midiMessageArray d |}
    w sampleRateToUse blockSizeToUse.

(** The constructor taking a render context provider. *)
Definition ModifierNode_withProvider (inputNode modifierToProcess : Addr)
    (sampleRateToUse : double) (blockSizeToUse : Z)
    (contextProvider : option Addr) (w : World) : ModifierNode * World :=
  let d := defaultMembers inputNode modifierToProcess in
  initialiseModifier
    {| input := inputNode;
       modifier := modifierToProcess;
       audioRenderContextProvider := contextProvider;
       trackMuteState := trackMuteState d;
       playHeadState := playHeadState d;
       isRendering := isRendering d;
       isInitialised := isInitialised d;
       sampleRate := sampleRate d;
       automationAdjustmentTime := automationAdjustmentTime d;
       midiMessageArray := midiMessageArray d |}
    w sampleRateToUse blockSizeToUse.

(** [ModifierNode::~ModifierNode]. *)
Definition destroy (n : ModifierNode) (w : World) : World :=
  if isInitialised n && negb (baseClassNeedsInitialising (modifiers w (modifier n)))
  then modifierCalled w (modifier n)
         (baseClassDeinitialise (modifiers w (modifier n)))
         (CallDeinitialise (modifier n))
  else w.

(** [ModifierNode::getNodeProperties]. *)
Definition getNodeProperties (n : ModifierNode) (w : World) : NodeProperties :=
  let props := Node_getNodeProperties (nodes w (input n)) in
  let m := modifiers w (modifier n) in
  let audioInputs := Z.of_nat (List.length (getAudioInputNames m)) in
  let midiInputs := Z.of_nat (List.length (getMidiInputNames m)) in
  {| numberOfChannels := jmax (numberOfChannels props) audioInputs;
     hasAudio := hasAudio props || (0 <? audioInputs);
     hasMidi := hasMidi props || (0 <? midiInputs);
     latencyNumSamples := latencyNumSamples props;
     nodeID := size_t_cast (itemID_getRawID m) |}.

(** [ModifierNode::prepareToPlay]; [info] is only compared with the sample
    rate of the node in an assertion. *)
Definition prepareToPlay (n : ModifierNode) (w : World)
    (info : PlaybackInitialisationInfo) : ModifierNode :=
  let props := getNodeProperties n w in
  if 0 <? latencyNumSamples props
  then withAutomationAdjustmentTime n
         (PrimFloat.opp (sampleToTime (latencyNumSamples props) (sampleRate n)))
  else n.

(** [ModifierNode::getPluginRenderContext].  With neither a provider nor a
    play head state the code dereferences a null pointer (the assertion
    before it is compiled out of release builds): no context, [None]. *)
Definition getPluginRenderContext (n : ModifierNode) (w : World)
    (referenceSamplePosition : Z) (destBuffer : AudioBuffer)
    : option PluginRenderContext :=
  match audioRenderContextProvider n with
  | Some provider =>
      let rc := getContext (inputProviders w provider) in
      Some
      {| rc_destBuffer := Some destBuffer;
         rc_destBufferChannels := rc_destBufferChannels rc;
         rc_bufferStartSample := 0;
         rc_bufferNumSamples := getNumSamples destBuffer;
         rc_bufferForMidiMessages := Some (midiMessageArray n);
         rc_midiBufferOffset := 0%float;
         rc_editTime := rc_editTime rc;
         rc_isPlaying := rc_isPlaying rc;
         rc_isScrubbing := rc_isScrubbing rc;
         rc_isRendering := rc_isRendering rc;
         rc_allowBypassedProcessing := rc_allowBypassedProcessing rc |}
  | None =>
      match playHeadState n with
      | Some p =>
          let playHead := playHead (playHeadStates w p) in
          Some
            {| rc_destBuffer := Some destBuffer;
               rc_destBufferChannels := canonicalChannelSet (bufferGetNumChannels destBuffer);
               rc_bufferStartSample := 0;
               rc_bufferNumSamples := getNumSamples destBuffer;
               rc_bufferForMidiMessages := Some (midiMessageArray n);
               rc_midiBufferOffset := 0%float;
               rc_editTime :=
                 PrimFloat.add
                   (sampleToTime
                      (referenceSamplePositionToTimelinePosition playHead
                         referenceSamplePosition)
                      (sampleRate n))
                   (automationAdjustmentTime n);
               rc_isPlaying := isPlaying playHead;
               rc_isScrubbing := isUserDragging playHead;
               rc_isRendering := isRendering n;
               rc_allowBypassedProcessing := false |}
      | None => None
      end
  end.

(** The first block of [ModifierNode::process]: copy the inputs to the
    outputs. *)
Definition copyInputsToOutputs (inputAudioBlock outputAudioBlock : AudioBlock)
    : AudioBlock :=
  let numInputChannelsToCopy :=
    Nat.min (getNumChannels inputAudioBlock) (getNumChannels outputAudioBlock) in
  if (0 <? numInputChannelsToCopy)%nat
  then choc_copy outputAudioBlock
         (getChannelRange inputAudioBlock 0 numInputChannelsToCopy)
  else outputAudioBlock.

(** The MIDI part of [ModifierNode::process], up to the decision to run the
    modifier: the scratch list takes the input events, then the play head
    and the mute state are consulted.  Yields [shouldProcess] and the node
    with its scratch list. *)
Definition stageMidi (n : ModifierNode) (w : World) (inputMidi : MidiMessageArray)
    : bool * ModifierNode :=
  let n1 := withMidiMessageArray n (copyFrom (midiMessageArray n) inputMidi) in
  let shouldProcess := enabledParam (modifiers w (modifier n1)) in
  let n2 :=
    match playHeadState n1 with
    | Some p =>
        if didPlayheadJump (playHeadStates w p)
        then withMidiMessageArray n1 (setAllNotesOff (midiMessageArray n1))
        else n1
    | None => n1
    end in
  match trackMuteState n2 with
  | Some t =>
      let muteState := trackMuteStates w t in
      if negb (shouldTrackContentsBeProcessed muteState)
      then (shouldProcess && shouldTrackBeAudible muteState,
            if wasJustMuted muteState
            then withMidiMessageArray n2 (setAllNotesOff (midiMessageArray n2))
            else n2)
      else (shouldProcess, n2)
  | None => (shouldProcess, n2)
  end.

(** The last statement of [ModifierNode::process]: the scratch list is
    copied to the MIDI output; the audio is already in the output block. *)
Definition publish (n : ModifierNode) (pc : ProcessContext)
    (outputAudioBlock : AudioBlock) : ProcessContext :=
  {| referenceSampleRange := referenceSampleRange pc;
     buffers :=
       {| audio := outputAudioBlock;
          midi := copyFrom (midi (buffers pc)) (midiMessageArray n) |} |}.

(** [ModifierNode::process].  [None] when the render context is asked for
    and the node has neither a provider nor a play head state. *)
Definition process (n : ModifierNode) (w : World) (pc : ProcessContext)
    : option (ModifierNode * World * ProcessContext) :=
  let inputBuffers := Node_getProcessedOutput (nodes w (input n)) in
  let outputBuffers := buffers pc in
  let outputAudioBlock :=
    copyInputsToOutputs (audio inputBuffers) (audio outputBuffers) in
  let outputAudioBuffer := createAudioBuffer outputAudioBlock in
  let (shouldProcess, n1) := stageMidi n w (midi inputBuffers) in
  if shouldProcess
  then
    match getPluginRenderContext n1 w (getStart (referenceSampleRange pc))
            outputAudioBuffer with
    | Some rc =>
        let '(m', destAfter, midiAfter) :=
          applyToBuffer (modifiers w (modifier n1)) rc in
        let n2 :=
          match midiAfter with
          | Some l => withMidiMessageArray n1 l
          | None => n1
          end in
        let written :=
          match destAfter with
          | Some b => viewAfter outputAudioBlock b
          | None => outputAudioBlock
          end in
        Some (n2,
              modifierCalled w (modifier n1) m' (CallApplyToBuffer (modifier n1) rc),
              publish n2 pc written)
    | None => None
    end
  else Some (n1, w, publish n1 pc outputAudioBlock).

(** ** The life of a node

    Between two calls the collaborators change on their own, so every call
    of a script comes with the world it finds. *)
Inductive Op :=
| OpGetNodeProperties
| OpPrepareToPlay (info : PlaybackInitialisationInfo)
| OpProcess (pc : ProcessContext).

Definition step (n : ModifierNode) (w : World) (op : Op) : option ModifierNode :=
  match op with
  | OpGetNodeProperties => let _ := getNodeProperties n w in Some n
  | OpPrepareToPlay info => Some (prepareToPlay n w info)
  | OpProcess pc =>
      match process n w pc with
      | Some (n', _, _) => Some n'
      | None => None
      end
  end.

(** The states a node goes through along a script, the first one included;
    the list stops where a call has no outcome. *)
Fixpoint lifetime (n : ModifierNode) (script : list (World * Op)) : list ModifierNode :=
  n :: match script with
       | [] => []
       | (w, op) :: rest =>
           match step n w op with
           | Some n' => lifetime n' rest
           | None => []
           end
       end.

End ModifierNodeModel.

Arguments World M : clear implicits.

(** ** Two modifiers to run the node on

    [TestModifier] counts its initialisations the way a shared modifier
    does: it needs initialising while the count is zero.  Its
    [applyToBuffer] either leaves what the context points to as it finds
    it, or consumes the MIDI list, leaving an empty one. *)
Record TestModifier := mkTestModifier {
  tm_initialiseCount : Z;
  tm_enabled : bool;
  tm_audioInputNames : list string;
  tm_midiInputNames : list string;
  tm_rawID : Z;
  tm_latency : Z;
  tm_consumesMidi : bool
}.

Definition tm_withCount (m : TestModifier) (c : Z) : TestModifier :=
  {| tm_initialiseCount := c;
     tm_enabled := tm_enabled m;
     tm_audioInputNames := tm_audioInputNames m;
     tm_midiInputNames := tm_midiInputNames m;
     tm_rawID := tm_rawID m;
     tm_latency := tm_latency m;
     tm_consumesMidi := tm_consumesMidi m |}.

#[export] Instance TestModifier_Modifier : Modifier TestModifier := {
  baseClassInitialise m _ _ := tm_withCount m (tm_initialiseCount m + 1);
  baseClassDeinitialise m := tm_withCount m (tm_initialiseCount m - 1);
  baseClassNeedsInitialising m := tm_initialiseCount m =? 0;
  applyToBuffer m rc :=
    (m, rc_destBuffer rc,
     if tm_consumesMidi m
     then Some {| isAllNotesOff := false; messages := [] |}
     else rc_bufferForMidiMessages rc);
  getAudioInputNames := tm_audioInputNames;
  getMidiInputNames := tm_midiInputNames;
  itemID_getRawID := tm_rawID;
  enabledParam := tm_enabled;
  reportedLatencySamples := tm_latency
}.

(** ** Concrete collaborators for the examples *)

Definition silentNode (latency : Z) (output : AudioAndMidiBuffer) : Node :=
  {| Node_getNodeProperties :=
       {| hasAudio := true; hasMidi := false; numberOfChannels := 1;
          latencyNumSamples := latency; nodeID := 7 |};
     Node_getProcessedOutput := output |}.

Definition testPlayHeadState (jumped : bool) : PlayHeadState :=
  {| playHead :=
       {| referenceSamplePositionToTimelinePosition := fun s => s + 100;
          isPlaying := true;
          isUserDragging := false |};
     didPlayheadJump := jumped |}.

Definition testContext : PluginRenderContext :=
  {| rc_destBuffer := None;
     rc_destBufferChannels := customChannelSet [true; false; true];
     rc_bufferStartSample := 5;
     rc_bufferNumSamples := 9;
     rc_bufferForMidiMessages := None;
     rc_midiBufferOffset := 3%float;
     rc_editTime := 12%float;
     rc_isPlaying := false;
     rc_isScrubbing := true;
     rc_isRendering := true;
     rc_allowBypassedProcessing := true |}.

(** A world in which every address of a kind holds the same object. *)
Definition testWorld (unit : TestModifier) (upstream : Node)
    (muteState : TrackMuteState) (playHeadStateNow : PlayHeadState) : World TestModifier :=
  {| nodes := fun _ => upstream;
     modifiers := fun _ => unit;
     trackMuteStates := fun _ => muteState;
     playHeadStates := fun _ => playHeadStateNow;
     inputProviders := fun _ => {| getContext := testContext |};
     calls := [] |}.

Definition testModifier (count : Z) (enabled consumesMidi : bool) : TestModifier :=
  {| tm_initialiseCount := count;
     tm_enabled := enabled;
     tm_audioInputNames := ["in"%string];
     tm_midiInputNames := [];
     tm_rawID := 42;
     tm_latency := 64;
     tm_consumesMidi := consumesMidi |}.

Definition noteOn : MidiMessage :=
  {| midiData := [144; 60; 100]; timeStamp := 0%float |}.

Definition testMidi (allNotesOff : bool) : MidiMessageArray :=
  {| isAllNotesOff := allNotesOff; messages := [noteOn] |}.

(** One upstream channel of two frames. *)
Definition monoInput : AudioBlock :=
  {| numFrames := 2; channels := [[0.5%float; 0.25%float]] |}.

(** A two-channel destination of two frames holding [x] everywhere. *)
Definition stereoDest (x : Sample) : AudioBlock :=
  {| numFrames := 2; channels := [[x; x]; [x; x]] |}.

Definition testProcessContext (dest : AudioBlock) : ProcessContext :=
  {| referenceSampleRange := (1000, 1002);
     buffers := {| audio := dest;
                   midi := {| isAllNotesOff := false; messages := [] |} |} |}.

Definition unmuted : TrackMuteState :=
  {| shouldTrackContentsBeProcessed := true;
     shouldTrackBeAudible := true;
     wasJustMuted := false |}.

Definition muted (justNow : bool) : TrackMuteState :=
  {| shouldTrackContentsBeProcessed := false;
     shouldTrackBeAudible := false;
     wasJustMuted := justNow |}.

(** Following the spec's words for the pass-through property: the upstream
    audio truncated to the destination channel count, or padded up to it
    with silent channels. *)
Definition truncatedOrPadded (upstream : AudioBlock) (destChannels : nat) : AudioBlock :=
  {| numFrames := numFrames upstream;
     channels :=
       firstn destChannels (channels upstream)
       ++ repeat (repeat 0%float (numFrames upstream))
            (destChannels - getNumChannels upstream) |}.

(** The mute-edge condition of [process]: a mute state is attached, the
    track contents are not to be processed, and the track was just muted. *)
Definition muteEdge {M : Type} (n : ModifierNode) (w : World M) : bool :=
  match trackMuteState n with
  | Some t =>
      negb (shouldTrackContentsBeProcessed (trackMuteStates w t))
      && wasJustMuted (trackMuteStates w t)
  | None => false
  end.

(** A modifier whose [applyToBuffer] leaves the all-notes-off flag of the
    MIDI list it is handed set. *)
Definition keepsAllNotesOff {M : Type} {modifierClass : Modifier M} (m : M) : Prop :=
  forall rc l,
    rc_bufferForMidiMessages rc = Some l ->
    isAllNotesOff l = true ->
    match snd (applyToBuffer m rc) with
    | Some l' => isAllNotesOff l' = true
    | None => True
    end.

(** The members a node keeps from its construction on: the pointers, the
    rendering flag, the initialised flag and the sample rate. *)
Definition sameWiring (n n' : ModifierNode) : Prop :=
  input n' = input n
  /\ modifier n' = modifier n
  /\ audioRenderContextProvider n' = audioRenderContextProvider n
  /\ trackMuteState n' = trackMuteState n
  /\ playHeadState n' = playHeadState n
  /\ isRendering n' = isRendering n
  /\ isInitialised n' = isInitialised n
  /\ sampleRate n' = sampleRate n.

(** The upstream node reports a latency of 16 samples, the modifier one of
    64. *)
Definition latencyWorld : World TestModifier :=
  testWorld (testModifier 1 true false)
    (silentNode 16 {| audio := monoInput; midi := testMidi false |})
    unmuted (testPlayHeadState false).

Definition latencyNode : ModifierNode :=
  fst (ModifierNode_withPlayHead 0%nat 0%nat 44100%float 512 None 0%nat false latencyWorld).

Definition latencyInfo : PlaybackInitialisationInfo :=
  {| info_sampleRate := 44100%float; info_blockSize := 512 |}.


(** A disabled modifier behind a node with a play head and no mute state;
    the upstream node delivers one channel. *)
Definition passThroughWorld : World TestModifier :=
  testWorld (testModifier 1 false false)
    (silentNode 0 {| audio := monoInput; midi := testMidi false |})
    unmuted (testPlayHeadState false).

Definition passThroughNode : ModifierNode :=
  fst (ModifierNode_withPlayHead 0%nat 0%nat 44100%float 512 None 0%nat false
         passThroughWorld).

(** Whether the play head the node looks at, if any, just jumped. *)
Definition playHeadJumped {M : Type} (n : ModifierNode) (w : World M) : bool :=
  match playHeadState n with
  | Some p => didPlayheadJump (playHeadStates w p)
  | None => false
  end.

(** The audio a call of [process] publishes, if the call has an outcome. *)
Definition publishedAudio {M : Type}
    (r : option (ModifierNode * World M * ProcessContext)) : option AudioBlock :=
  match r with
  | Some (_, _, pc') => Some (audio (buffers pc'))
  | None => None
  end.

(** The MIDI list a call of [process] publishes. *)
Definition publishedMidi {M : Type}
    (r : option (ModifierNode * World M * ProcessContext)) : option MidiMessageArray :=
  match r with
  | Some (_, _, pc') => Some (midi (buffers pc'))
  | None => None
  end.

(** A node with a play head that just jumped, over an enabled modifier that
    consumes the MIDI list it is handed. *)
Definition jumpWorld : World TestModifier :=
  testWorld (testModifier 1 true true)
    (silentNode 0 {| audio := monoInput; midi := testMidi false |})
    unmuted (testPlayHeadState true).

Definition jumpNode : ModifierNode :=
  fst (ModifierNode_withPlayHead 0%nat 0%nat 44100%float 512 None 0%nat false
         jumpWorld).

(** The same node over a modifier that leaves the MIDI list alone. *)
Definition jumpWorldQuiet : World TestModifier :=
  testWorld (testModifier 1 true false)
    (silentNode 0 {| audio := monoInput; midi := testMidi false |})
    unmuted (testPlayHeadState true).

(** Three consecutive blocks of a muted track: the mute starts in the first
    one. *)
Definition mutedWorld (justNow : bool) : World TestModifier :=
  testWorld (testModifier 1 true false)
    (silentNode 0 {| audio := monoInput; midi := testMidi false |})
    (muted justNow) (testPlayHeadState false).

Definition mutedNode : ModifierNode :=
  fst (ModifierNode_withPlayHead 0%nat 0%nat 44100%float 512 (Some 0%nat) 0%nat false
         (mutedWorld false)).

(** A modifier nobody initialised yet, and the node built on it. *)
Definition freshWorld : World TestModifier :=
  testWorld (testModifier 0 true false)
    (silentNode 0 {| audio := monoInput; midi := testMidi false |})
    unmuted (testPlayHeadState false).

Definition constructed : ModifierNode * World TestModifier :=
  ModifierNode_withPlayHead 0%nat 0%nat 44100%float 512 None 0%nat false freshWorld.

(** The world of [constructed] after the owner of the modifier
    deinitialised it. *)
Definition ownerDeinitialised : World TestModifier :=
  modifierCalled (snd constructed) 0%nat
    (baseClassDeinitialise (modifiers (snd constructed) 0%nat))
    (CallDeinitialise 0%nat).

(** A node built on a render context provider. *)
Definition providerNode : ModifierNode :=
  fst (ModifierNode_withProvider 0%nat 0%nat 44100%float 512 (Some 0%nat) freshWorld).

(** ** Further objects for the examples *)

(** A modifier with no audio and no MIDI input. *)
Definition portlessModifier : TestModifier :=
  {| tm_initialiseCount := 1;
     tm_enabled := true;
     tm_audioInputNames := [];
     tm_midiInputNames := [];
     tm_rawID := 42;
     tm_latency := 0;
     tm_consumesMidi := false |}.

Definition portlessWorld : World TestModifier :=
  testWorld portlessModifier
    (silentNode 0 {| audio := monoInput; midi := testMidi false |})
    unmuted (testPlayHeadState false).

(** A node built with a null context provider. *)
Definition nullProviderNode : ModifierNode :=
  fst (ModifierNode_withProvider 0%nat 0%nat 44100%float 512 None freshWorld).

(** An enabled modifier that leaves its buffers alone, on an audible track
    whose play head did not jump. *)
Definition runWorld : World TestModifier :=
  testWorld (testModifier 1 true false)
    (silentNode 0 {| audio := monoInput; midi := testMidi false |})
    unmuted (testPlayHeadState false).

(** A modifier whose [applyToBuffer] leaves the destination buffer and the
    MIDI list it is handed as it finds them. *)
Definition transparent {M : Type} {modifierClass : Modifier M} (m : M) : Prop :=
  forall rc,
    snd (fst (applyToBuffer m rc)) = rc_destBuffer rc
    /\ snd (applyToBuffer m rc) = rc_bufferForMidiMessages rc.

(** A call of a script that cannot move the automation adjustment time of a
    node whose upstream node is at [inputNode]: anything but a
    [prepareToPlay] that finds a positive upstream latency. *)
Definition keepsOffset {M : Type} (inputNode : Addr) (call : World M * Op) : bool :=
  match snd call with
  | OpPrepareToPlay _ =>
      latencyNumSamples (Node_getNodeProperties (nodes (fst call) inputNode)) <=? 0
  | _ => true
  end.

(** The world of [latencyWorld] once the upstream node reports no latency
    any more. *)
Definition latencyGoneWorld : World TestModifier :=
  testWorld (testModifier 1 true false)
    (silentNode 0 {| audio := monoInput; midi := testMidi false |})
    unmuted (testPlayHeadState false).

Definition laterCalls : list (World TestModifier * Op) :=
  [(latencyGoneWorld, OpProcess (testProcessContext (stereoDest 1%float)));
   (latencyGoneWorld, OpPrepareToPlay latencyInfo);
   (latencyGoneWorld, OpGetNodeProperties)].

(** Two upstream channels of two frames. *)
Definition stereoInput : AudioBlock :=
  {| numFrames := 2;
     channels := [[0.5%float; 0.25%float]; [0.125%float; 0.75%float]] |}.

(** A one-channel destination of two frames. *)
Definition monoDest : AudioBlock :=
  {| numFrames := 2; channels := [[3%float; 3%float]] |}.

(** A track that was just muted and is not audible, but whose contents are
    still to be processed. *)
Definition contentsProcessedWorld : World TestModifier :=
  testWorld (testModifier 1 true false)
    (silentNode 0 {| audio := monoInput; midi := testMidi false |})
    {| shouldTrackContentsBeProcessed := true;
       shouldTrackBeAudible := false;
       wasJustMuted := true |}
    (testPlayHeadState false).

(** * Properties *)

(** ** Arithmetic helpers *)

Lemma jmax_is_max (a b : Z) : jmax a b = Z.max a b.
Proof.
  unfold jmax. destruct (Z.ltb_spec a b); lia.
Qed.

Lemma SFadd_opp_is_SFsub (x y : spec_float) :
  SFadd prec emax x (SFopp y) = SFsub prec emax x y.
Proof.
  destruct x as [sx| sx| |sx mx ex], y as [sy| sy| |sy my ey]; simpl;
    try reflexivity;
    destruct sx, sy; reflexivity.
Qed.

(** Adding a negated [double] is subtracting it. *)
Lemma add_opp_is_sub (x y : double) :
  PrimFloat.add x (PrimFloat.opp y) = PrimFloat.sub x y.
Proof.
  apply Prim2SF_inj.
  rewrite add_spec, sub_spec, opp_spec.
  apply SFadd_opp_is_SFsub.
Qed.

(** ** What a call leaves untouched *)

Section Frame.

Context {M : Type} {modifierClass : Modifier M}.

Lemma sameWiring_refl (n : ModifierNode) : sameWiring n n.
Proof. repeat split. Qed.

Lemma sameWiring_trans (a b c : ModifierNode) :
  sameWiring a b -> sameWiring b c -> sameWiring a c.
Proof.
  unfold sameWiring. intros H1 H2.
  destruct H1 as (?&?&?&?&?&?&?&?), H2 as (?&?&?&?&?&?&?&?).
  repeat split; congruence.
Qed.

Lemma withMidiMessageArray_wiring (n : ModifierNode) (l : MidiMessageArray) :
  sameWiring n (withMidiMessageArray n l).
Proof. repeat split. Qed.

Lemma stageMidi_wiring (n : ModifierNode) (w : World M) (l : MidiMessageArray) :
  sameWiring n (snd (stageMidi n w l)).
Proof.
  unfold stageMidi.
  destruct (playHeadState _) as [p|]; [destruct (didPlayheadJump _)|];
    (destruct (trackMuteState _) as [t|] eqn:Ht; simpl in Ht; rewrite ?Ht;
     [destruct (negb _); [destruct (wasJustMuted _)|]|]);
    repeat split.
Qed.

Lemma stageMidi_automation (n : ModifierNode) (w : World M) (l : MidiMessageArray) :
  automationAdjustmentTime (snd (stageMidi n w l)) = automationAdjustmentTime n.
Proof.
  unfold stageMidi.
  destruct (playHeadState _) as [p|]; [destruct (didPlayheadJump _)|];
    (destruct (trackMuteState _) as [t|] eqn:Ht; simpl in Ht; rewrite ?Ht;
     [destruct (negb _); [destruct (wasJustMuted _)|]|]);
    reflexivity.
Qed.

Lemma process_wiring (n n' : ModifierNode) (w w' : World M) (pc pc' : ProcessContext) :
  process n w pc = Some (n', w', pc') -> sameWiring n n'.
Proof.
  unfold process.
  pose proof (stageMidi_wiring n w (midi (Node_getProcessedOutput (nodes w (input n))))) as Hs.
  destruct (stageMidi _ _ _) as [shouldProcess n1]. simpl in Hs.
  destruct shouldProcess.
  - destruct (getPluginRenderContext _ _ _ _) as [rc|]; [|discriminate].
    destruct (applyToBuffer _ _) as [[m' destAfter] midiAfter].
    intros H. injection H as <- _ _.
    destruct midiAfter; [|exact Hs].
    eapply sameWiring_trans; [exact Hs|apply withMidiMessageArray_wiring].
  - intros H. injection H as <- _ _. exact Hs.
Qed.

Lemma prepareToPlay_wiring (n : ModifierNode) (w : World M)
    (info : PlaybackInitialisationInfo) :
  sameWiring n (prepareToPlay n w info).
Proof.
  unfold prepareToPlay. destruct (0 <? _); repeat split.
Qed.

Lemma step_wiring (n n' : ModifierNode) (w : World M) (op : Op) :
  step n w op = Some n' -> sameWiring n n'.
Proof.
  destruct op as [|info|pc]; simpl.
  - intros H. injection H as <-. apply sameWiring_refl.
  - intros H. injection H as <-. apply prepareToPlay_wiring.
  - destruct (process n w pc) as [[[n1 w1] pc1]|] eqn:Hp; [|discriminate].
    intros H. injection H as <-. eapply process_wiring. exact Hp.
Qed.

(** Whatever is called on a node, in whatever worlds, its wiring is the one
    it was constructed with. *)
Lemma lifetime_wiring (script : list (World M * Op)) (n : ModifierNode) :
  Forall (sameWiring n) (lifetime n script).
Proof.
  revert n. induction script as [|[w op] rest IH]; intros n; simpl.
  - constructor; [apply sameWiring_refl|constructor].
  - constructor; [apply sameWiring_refl|].
    destruct (step n w op) as [n'|] eqn:Hs; [|constructor].
    apply step_wiring in Hs.
    eapply Forall_impl; [|apply IH].
    intros a Ha. eapply sameWiring_trans; eassumption.
Qed.

Lemma initialiseModifier_members (n : ModifierNode) (w : World M)
    (sampleRateToUse : double) (blockSizeToUse : Z) :
  let n' := fst (initialiseModifier n w sampleRateToUse blockSizeToUse) in
  input n' = input n
  /\ modifier n' = modifier n
  /\ audioRenderContextProvider n' = audioRenderContextProvider n
  /\ trackMuteState n' = trackMuteState n
  /\ playHeadState n' = playHeadState n
  /\ isRendering n' = isRendering n
  /\ isInitialised n' = true
  /\ sampleRate n' = sampleRateToUse
  /\ automationAdjustmentTime n' = automationAdjustmentTime n.
Proof. repeat split. Qed.

End Frame.

(** ** Property aggregation *)

(** C2.  For every upstream node and every modifier, [getNodeProperties]
    returns the larger of the upstream channel count and the number of audio
    inputs of the modifier; it reports audio when the upstream does or the
    modifier has an audio input, MIDI when the upstream does or the modifier
    has a MIDI input; the node ID is the raw item ID of the modifier, cast to
    [size_t].  The call leaves the node as it was. *)
Theorem getNodeProperties_aggregates {M : Type} {modifierClass : Modifier M}
    (n : ModifierNode) (w : World M) :
  let upstream := Node_getNodeProperties (nodes w (input n)) in
  let unit := modifiers w (modifier n) in
  let audioInputPortCount := Z.of_nat (List.length (getAudioInputNames unit)) in
  let midiInputPortCount := Z.of_nat (List.length (getMidiInputNames unit)) in
  let props := getNodeProperties n w in
  numberOfChannels props = Z.max (numberOfChannels upstream) audioInputPortCount
  /\ hasAudio props = (hasAudio upstream || (0 <? audioInputPortCount))
  /\ hasMidi props = (hasMidi upstream || (0 <? midiInputPortCount))
  /\ nodeID props = size_t_cast (itemID_getRawID unit)
  /\ step n w OpGetNodeProperties = Some n.
Proof.
  cbv zeta. unfold getNodeProperties. simpl.
  rewrite jmax_is_max. repeat split.
Qed.

(** A raw item ID is an unsigned 64-bit value, which the cast leaves as it
    is. *)
Lemma size_t_cast_of_uint64 (z : Z) : 0 <= z < 2 ^ 64 -> size_t_cast z = z.
Proof. intros H. unfold size_t_cast. apply Z.mod_small. exact H. Qed.

Example getNodeProperties_example :
  getNodeProperties
    (fst (ModifierNode_withPlayHead 0%nat 0%nat 44100%float 512 None 0%nat false
            (testWorld (testModifier 0 true false)
               (silentNode 0 {| audio := monoInput; midi := testMidi false |})
               unmuted (testPlayHeadState false))))
    (testWorld (testModifier 1 true false)
       (silentNode 0 {| audio := monoInput; midi := testMidi false |})
       unmuted (testPlayHeadState false))
  = {| hasAudio := true; hasMidi := false; numberOfChannels := 1;
       latencyNumSamples := 0; nodeID := 42 |}.
Proof. reflexivity. Qed.

(** ** Latency and the automation time offset *)

Lemma getNodeProperties_latency {M : Type} {modifierClass : Modifier M}
    (n : ModifierNode) (w : World M) :
  latencyNumSamples (getNodeProperties n w)
  = latencyNumSamples (Node_getNodeProperties (nodes w (input n))).
Proof. reflexivity. Qed.

(** C3, as the code has it.  The latency [prepareToPlay] looks at is the one
    of the aggregated properties, which is the latency the upstream node
    reports: the modifier contributes none.  When that latency is [L > 0]
    samples, the automation adjustment time is [-(L / sampleRate)] after
    [prepareToPlay], and a render context built from the play head then has
    the mapped timeline position in seconds minus [L / sampleRate] as its
    edit time. *)
Theorem prepareToPlay_backdates_by_upstream_latency
    {M : Type} {modifierClass : Modifier M}
    (n : ModifierNode) (w : World M) (info : PlaybackInitialisationInfo) (L : Z) :
  latencyNumSamples (Node_getNodeProperties (nodes w (input n))) = L ->
  0 < L ->
  let n' := prepareToPlay n w info in
  automationAdjustmentTime n'
  = PrimFloat.opp (PrimFloat.div (double_of_Z L) (sampleRate n))
  /\ forall (w' : World M) (p : Addr) (R : Z) (destBuffer : AudioBuffer),
       audioRenderContextProvider n = None ->
       playHeadState n = Some p ->
       exists rc,
         getPluginRenderContext n' w' R destBuffer = Some rc
         /\ rc_editTime rc
            = PrimFloat.sub
                (sampleToTime
                   (referenceSamplePositionToTimelinePosition
                      (playHead (playHeadStates w' p)) R)
                   (sampleRate n))
                (PrimFloat.div (double_of_Z L) (sampleRate n)).
Proof.
  intros HL Hpos n'.
  assert (Hn' : n' = withAutomationAdjustmentTime n
                       (PrimFloat.opp (sampleToTime L (sampleRate n)))).
  { unfold n', prepareToPlay. rewrite getNodeProperties_latency, HL.
    destruct (Z.ltb_spec 0 L); [reflexivity|lia]. }
  split.
  - rewrite Hn'. reflexivity.
  - intros w' p R destBuffer Hprov Hph.
    rewrite Hn'. unfold getPluginRenderContext. simpl.
    rewrite Hprov, Hph. eexists. split; [reflexivity|].
    simpl. apply add_opp_is_sub.
Qed.

Lemma prepareToPlay_backdates_witness :
  automationAdjustmentTime (prepareToPlay latencyNode latencyWorld latencyInfo)
  = PrimFloat.opp (PrimFloat.div (double_of_Z 16) 44100%float)
  /\ exists rc,
       getPluginRenderContext (prepareToPlay latencyNode latencyWorld latencyInfo)
         latencyWorld 44000 (createAudioBuffer (stereoDest 1%float))
       = Some rc
       /\ rc_editTime rc
          = PrimFloat.sub (sampleToTime 44100 44100%float)
              (PrimFloat.div (double_of_Z 16) 44100%float).
Proof.
  destruct (prepareToPlay_backdates_by_upstream_latency
              (modifierClass := TestModifier_Modifier)
              latencyNode latencyWorld latencyInfo 16 eq_refl eq_refl)
    as [Htime Hctx].
  split; [exact Htime|].
  exact (Hctx latencyWorld 0%nat 44000
           (createAudioBuffer (stereoDest 1%float)) eq_refl eq_refl).
Defined.

(** The modifier of [latencyWorld] reports 64 samples of latency and the
    upstream node 16: the automation adjustment time follows the upstream
    node, it is not [-(64 / sampleRate)]. *)
Lemma prepareToPlay_ignores_modifier_latency :
  reportedLatencySamples (modifiers latencyWorld (modifier latencyNode)) = 64
  /\ automationAdjustmentTime (prepareToPlay latencyNode latencyWorld latencyInfo)
     <> PrimFloat.opp (PrimFloat.div (double_of_Z 64) (sampleRate latencyNode)).
Proof.
  split; [reflexivity|].
  intros H. apply (f_equal Prim2SF) in H. vm_compute in H. discriminate H.
Qed.

(** ** Copy-through *)

Lemma copySamples_same_length (dest src : list Sample) :
  List.length src = List.length dest -> copySamples dest src = src.
Proof.
  revert dest. induction src as [|s src IH]; intros [|d dest] Hlen;
    simpl in *; try discriminate; try reflexivity.
  f_equal. apply IH. lia.
Qed.

Lemma copyChannels_length (src dest : list (list Sample)) :
  List.length (copyChannels dest src) = List.length dest.
Proof.
  revert dest. induction src as [|s src IH]; intros [|d dest]; simpl;
    try reflexivity.
  f_equal. apply IH.
Qed.

(** Channels past the end of the source are the destination's own. *)
Lemma copyChannels_beyond (src dest : list (list Sample)) (i : nat) :
  (List.length src <= i)%nat ->
  nth_error (copyChannels dest src) i = nth_error dest i.
Proof.
  revert dest i. induction src as [|s src IH]; intros [|d dest] i Hi;
    simpl in *; try reflexivity.
  destruct i as [|i]; [lia|]. simpl. apply IH. lia.
Qed.

Lemma copyChannels_same_frames (F : nat) (src dest : list (list Sample)) :
  Forall (fun c => List.length c = F) src ->
  Forall (fun c => List.length c = F) dest ->
  (List.length src <= List.length dest)%nat ->
  copyChannels dest src = src ++ skipn (List.length src) dest.
Proof.
  intros Hs. revert dest.
  induction Hs as [|s src Hlen Hs IH]; intros dest Hd Hle.
  - destruct dest; reflexivity.
  - destruct dest as [|d dest]; simpl in Hle; [lia|].
    inversion Hd as [|? ? Hdlen Hd']; subst.
    simpl. f_equal.
    + apply copySamples_same_length. congruence.
    + apply IH; [exact Hd'|lia].
Qed.

Lemma In_firstn {A : Type} (k : nat) (l : list A) (x : A) :
  In x (firstn k l) -> In x l.
Proof.
  intros H. rewrite <- (firstn_skipn k l). apply in_or_app. left. exact H.
Qed.

Lemma copyInputsToOutputs_beyond (inputAudioBlock outputAudioBlock : AudioBlock) (i : nat) :
  (Nat.min (getNumChannels inputAudioBlock) (getNumChannels outputAudioBlock) <= i)%nat ->
  nth_error (channels (copyInputsToOutputs inputAudioBlock outputAudioBlock)) i
  = nth_error (channels outputAudioBlock) i.
Proof.
  intros Hi. unfold copyInputsToOutputs.
  destruct (Nat.ltb_spec 0
              (Nat.min (getNumChannels inputAudioBlock) (getNumChannels outputAudioBlock)));
    [|reflexivity].
  simpl. apply copyChannels_beyond.
  rewrite Nat.sub_0_r, length_firstn. unfold getNumChannels in *. lia.
Qed.

Lemma copyInputsToOutputs_channels (inputAudioBlock outputAudioBlock : AudioBlock) :
  wellFormed inputAudioBlock ->
  wellFormed outputAudioBlock ->
  getNumFrames inputAudioBlock = getNumFrames outputAudioBlock ->
  channels (copyInputsToOutputs inputAudioBlock outputAudioBlock)
  = firstn (Nat.min (getNumChannels inputAudioBlock) (getNumChannels outputAudioBlock))
      (channels inputAudioBlock)
    ++ skipn (Nat.min (getNumChannels inputAudioBlock) (getNumChannels outputAudioBlock))
         (channels outputAudioBlock).
Proof.
  unfold wellFormed, getNumFrames, getNumChannels, copyInputsToOutputs.
  intros Hin Hout Hframes.
  set (k := Nat.min _ _).
  destruct (Nat.ltb_spec 0 k) as [Hk|Hk].
  - simpl. rewrite Nat.sub_0_r.
    rewrite (copyChannels_same_frames (numFrames outputAudioBlock)).
    + rewrite length_firstn.
      replace (Nat.min k (List.length (channels inputAudioBlock))) with k
        by (unfold k, getNumChannels; lia).
      reflexivity.
    + apply Forall_forall. intros c Hc.
      rewrite <- Hframes.
      apply (proj1 (Forall_forall _ _) Hin).
      eapply In_firstn. exact Hc.
    + exact Hout.
    + rewrite length_firstn. unfold k, getNumChannels. lia.
  - assert (k = 0%nat) as -> by lia. reflexivity.
Qed.

Lemma copyInputsToOutputs_shape (inputAudioBlock outputAudioBlock : AudioBlock) :
  getNumFrames (copyInputsToOutputs inputAudioBlock outputAudioBlock)
  = getNumFrames outputAudioBlock
  /\ getNumChannels (copyInputsToOutputs inputAudioBlock outputAudioBlock)
     = getNumChannels outputAudioBlock.
Proof.
  unfold copyInputsToOutputs, getNumChannels.
  destruct (_ <? _)%nat; split; try reflexivity.
  simpl. apply copyChannels_length.
Qed.

(** The upstream channels, cut at the destination channel count, followed by
    the destination channels the upstream does not reach. *)
Lemma copyInputsToOutputs_truncates (inputAudioBlock outputAudioBlock : AudioBlock) :
  wellFormed inputAudioBlock ->
  wellFormed outputAudioBlock ->
  getNumFrames inputAudioBlock = getNumFrames outputAudioBlock ->
  channels (copyInputsToOutputs inputAudioBlock outputAudioBlock)
  = firstn (getNumChannels outputAudioBlock) (channels inputAudioBlock)
    ++ skipn (getNumChannels inputAudioBlock) (channels outputAudioBlock).
Proof.
  intros Hin Hout Hframes.
  rewrite (copyInputsToOutputs_channels _ _ Hin Hout Hframes).
  unfold getNumChannels.
  destruct (Nat.le_ge_cases (List.length (channels inputAudioBlock))
              (List.length (channels outputAudioBlock))) as [Hle|Hge].
  - rewrite Nat.min_l by exact Hle.
    rewrite (firstn_all2 (channels inputAudioBlock) Hle).
    rewrite firstn_all. reflexivity.
  - rewrite Nat.min_r by exact Hge.
    rewrite (skipn_all2 (channels outputAudioBlock) Hge).
    rewrite skipn_all. reflexivity.
Qed.

(** Onto a destination that is silent where the upstream does not reach, the
    copy-through gives the upstream audio truncated or padded with
    silence. *)
Lemma copyInputsToOutputs_onto_silence (inputAudioBlock outputAudioBlock : AudioBlock) :
  wellFormed inputAudioBlock ->
  wellFormed outputAudioBlock ->
  getNumFrames inputAudioBlock = getNumFrames outputAudioBlock ->
  skipn (getNumChannels inputAudioBlock) (channels outputAudioBlock)
  = repeat (repeat 0%float (numFrames inputAudioBlock))
      (getNumChannels outputAudioBlock - getNumChannels inputAudioBlock) ->
  copyInputsToOutputs inputAudioBlock outputAudioBlock
  = truncatedOrPadded inputAudioBlock (getNumChannels outputAudioBlock).
Proof.
  intros Hin Hout Hframes Hsilent.
  pose proof (copyInputsToOutputs_truncates _ _ Hin Hout Hframes) as Hch.
  pose proof (copyInputsToOutputs_shape inputAudioBlock outputAudioBlock) as [Hf _].
  destruct (copyInputsToOutputs inputAudioBlock outputAudioBlock) as [F chans].
  unfold truncatedOrPadded, getNumFrames in *. simpl in *.
  rewrite Hch, Hsilent, Hf, Hframes. reflexivity.
Qed.

(** C9.  The copy-through step of [process] copies the first
    [min (upstream channels, destination channels)] channels of the upstream
    audio into the destination; the destination channels from that index on
    keep the contents they had before the call, and with a minimum of zero
    the destination is left as it was.  (The frame counts of the two blocks
    agree: the code asserts it.) *)
Theorem copy_through_copies_min_channels (inputAudioBlock outputAudioBlock : AudioBlock) :
  wellFormed inputAudioBlock ->
  wellFormed outputAudioBlock ->
  getNumFrames inputAudioBlock = getNumFrames outputAudioBlock ->
  let copied :=
    Nat.min (getNumChannels inputAudioBlock) (getNumChannels outputAudioBlock) in
  let result := copyInputsToOutputs inputAudioBlock outputAudioBlock in
  getNumFrames result = getNumFrames outputAudioBlock
  /\ getNumChannels result = getNumChannels outputAudioBlock
  /\ (forall i, (i < copied)%nat ->
        nth_error (channels result) i = nth_error (channels inputAudioBlock) i)
  /\ (forall i, (copied <= i)%nat ->
        nth_error (channels result) i = nth_error (channels outputAudioBlock) i)
  /\ (copied = 0%nat -> result = outputAudioBlock).
Proof.
  intros Hin Hout Hframes copied result.
  pose proof (copyInputsToOutputs_channels _ _ Hin Hout Hframes) as Hch.
  fold copied in Hch. fold result in Hch.
  pose proof (copyInputsToOutputs_shape inputAudioBlock outputAudioBlock) as [Hf Hc].
  split; [exact Hf|]. split; [exact Hc|]. split; [|split].
  - intros i Hi. rewrite Hch.
    rewrite nth_error_app1.
    + rewrite nth_error_firstn.
      destruct (Nat.ltb_spec i copied); [reflexivity|lia].
    + rewrite length_firstn. unfold copied, getNumChannels in *. lia.
  - intros i Hi. apply copyInputsToOutputs_beyond. exact Hi.
  - intros H0. unfold result, copyInputsToOutputs. fold copied. rewrite H0.
    reflexivity.
Qed.

Lemma monoInput_wellFormed : wellFormed monoInput.
Proof. repeat constructor. Defined.

Lemma stereoDest_wellFormed (x : Sample) : wellFormed (stereoDest x).
Proof. repeat constructor. Defined.

Lemma copy_through_witness :
  nth_error (channels (copyInputsToOutputs monoInput (stereoDest 1%float))) 1
  = nth_error (channels (stereoDest 1%float)) 1.
Proof.
  apply (copy_through_copies_min_channels monoInput (stereoDest 1%float)
           monoInput_wellFormed (stereoDest_wellFormed 1%float) eq_refl).
  vm_compute. lia.
Defined.

Example copy_through_example :
  copyInputsToOutputs monoInput (stereoDest 1%float)
  = {| numFrames := 2;
       channels := [[0.5%float; 0.25%float]; [1%float; 1%float]] |}.
Proof. reflexivity. Qed.

(** ** Pass-through when the modifier is not run *)

Lemma stageMidi_without_mute_state {M : Type} {modifierClass : Modifier M}
    (n : ModifierNode) (w : World M) (l : MidiMessageArray) :
  trackMuteState n = None ->
  stageMidi n w l
  = (enabledParam (modifiers w (modifier n)),
     withMidiMessageArray n
       (if playHeadJumped n w then setAllNotesOff l else l)).
Proof.
  intros Hmute. unfold stageMidi, playHeadJumped, copyFrom. simpl.
  destruct (playHeadState n) as [p|]; [destruct (didPlayheadJump _)|];
    simpl; rewrite Hmute; reflexivity.
Qed.

(** C1, as the code has it.  When [shouldProcess] comes out false and no
    mute state is attached, [process] has an outcome, leaves the world as it
    was, and publishes: as audio, the upstream channels truncated to the
    destination channel count, followed, when the upstream has fewer
    channels, by the channels the destination already held at those indices
    (they are not silenced); as MIDI, the upstream events, with the
    all-notes-off flag of the upstream list, or set when the play head just
    jumped. *)
Theorem process_passes_through_when_not_processing
    {M : Type} {modifierClass : Modifier M}
    (n : ModifierNode) (w : World M) (pc : ProcessContext) :
  let inputBuffers := Node_getProcessedOutput (nodes w (input n)) in
  let dest := audio (buffers pc) in
  trackMuteState n = None ->
  fst (stageMidi n w (midi inputBuffers)) = false ->
  wellFormed (audio inputBuffers) ->
  wellFormed dest ->
  getNumFrames (audio inputBuffers) = getNumFrames dest ->
  exists n' pc',
    process n w pc = Some (n', w, pc')
    /\ getNumFrames (audio (buffers pc')) = getNumFrames dest
    /\ getNumChannels (audio (buffers pc')) = getNumChannels dest
    /\ channels (audio (buffers pc'))
       = firstn (getNumChannels dest) (channels (audio inputBuffers))
         ++ skipn (getNumChannels (audio inputBuffers)) (channels dest)
    /\ messages (midi (buffers pc')) = messages (midi inputBuffers)
    /\ isAllNotesOff (midi (buffers pc'))
       = (isAllNotesOff (midi inputBuffers) || playHeadJumped n w).
Proof.
  intros inputBuffers dest Hmute Hshould Hin Hout Hframes.
  unfold process. fold inputBuffers. fold dest.
  rewrite (stageMidi_without_mute_state n w _ Hmute) in *.
  simpl in Hshould. rewrite Hshould.
  eexists. eexists. split; [reflexivity|].
  pose proof (copyInputsToOutputs_shape (audio inputBuffers) dest) as [Hf Hc].
  simpl. unfold copyFrom.
  split; [exact Hf|]. split; [exact Hc|]. split.
  - apply copyInputsToOutputs_truncates; assumption.
  - destruct (playHeadJumped n w); simpl.
    + split; [reflexivity|apply eq_sym, orb_true_r].
    + split; [reflexivity|apply eq_sym, orb_false_r].
Qed.

Lemma pass_through_witness :
  exists n' pc',
    process passThroughNode passThroughWorld (testProcessContext (stereoDest 1%float))
    = Some (n', passThroughWorld, pc')
    /\ channels (audio (buffers pc'))
       = [[0.5%float; 0.25%float]; [1%float; 1%float]]
    /\ messages (midi (buffers pc')) = [noteOn].
Proof.
  destruct (process_passes_through_when_not_processing
              (modifierClass := TestModifier_Modifier)
              passThroughNode passThroughWorld
              (testProcessContext (stereoDest 1%float))
              eq_refl eq_refl monoInput_wellFormed
              (stereoDest_wellFormed 1%float) eq_refl)
    as (n' & pc' & Hp & _ & _ & Hch & Hm & _).
  exists n', pc'. split; [exact Hp|]. split; [exact Hch|exact Hm].
Defined.

(** With a destination whose second channel holds ones, the published
    second channel holds ones: the output is not the one-channel upstream
    audio padded with silence, and two destinations give two outputs for the
    same upstream audio. *)
Lemma pass_through_keeps_destination_content :
  fst (stageMidi passThroughNode passThroughWorld
         (midi (Node_getProcessedOutput (nodes passThroughWorld (input passThroughNode)))))
  = false
  /\ trackMuteState passThroughNode = None
  /\ publishedAudio
       (process passThroughNode passThroughWorld (testProcessContext (stereoDest 1%float)))
     = Some {| numFrames := 2;
               channels := [[0.5%float; 0.25%float]; [1%float; 1%float]] |}
  /\ publishedAudio
       (process passThroughNode passThroughWorld (testProcessContext (stereoDest 1%float)))
     <> Some (truncatedOrPadded monoInput 2)
  /\ publishedAudio
       (process passThroughNode passThroughWorld (testProcessContext (stereoDest 1%float)))
     <> publishedAudio
          (process passThroughNode passThroughWorld (testProcessContext (stereoDest 2%float))).
Proof.
  split; [reflexivity|]. split; [reflexivity|]. split; [reflexivity|].
  split; intros H;
    apply (f_equal (option_map (fun b => map (map Prim2SF) (channels b)))) in H;
    vm_compute in H; discriminate H.
Qed.

(** ** The all-notes-off flag *)

Section Staging.

Context {M : Type} {modifierClass : Modifier M}.

(** What the decision step leaves in the scratch list: the upstream list,
    with the flag set when the play head jumped or the mute edge was hit. *)
Lemma stageMidi_scratch (n : ModifierNode) (w : World M) (l : MidiMessageArray) :
  midiMessageArray (snd (stageMidi n w l))
  = if playHeadJumped n w || muteEdge n w then setAllNotesOff l else l.
Proof.
  unfold stageMidi, playHeadJumped, muteEdge, copyFrom. simpl.
  destruct (playHeadState n) as [p|]; [destruct (didPlayheadJump _)|]; simpl;
    (destruct (trackMuteState n) as [t|];
     [destruct (shouldTrackContentsBeProcessed _); simpl;
      [|destruct (wasJustMuted _)]|]);
    reflexivity.
Qed.

Lemma stageMidi_flag (n : ModifierNode) (w : World M) (l : MidiMessageArray) :
  isAllNotesOff (midiMessageArray (snd (stageMidi n w l)))
  = (isAllNotesOff l || (playHeadJumped n w || muteEdge n w)).
Proof.
  rewrite stageMidi_scratch.
  destruct (playHeadJumped n w || muteEdge n w); simpl.
  - apply eq_sym, orb_true_r.
  - apply eq_sym, orb_false_r.
Qed.

Lemma stageMidi_messages (n : ModifierNode) (w : World M) (l : MidiMessageArray) :
  messages (midiMessageArray (snd (stageMidi n w l))) = messages l.
Proof.
  rewrite stageMidi_scratch.
  destruct (playHeadJumped n w || muteEdge n w); reflexivity.
Qed.

(** [shouldProcess] as the decision step leaves it. *)
Lemma stageMidi_shouldProcess (n : ModifierNode) (w : World M) (l : MidiMessageArray) :
  fst (stageMidi n w l)
  = (enabledParam (modifiers w (modifier n))
     && match trackMuteState n with
        | Some t =>
            shouldTrackContentsBeProcessed (trackMuteStates w t)
            || shouldTrackBeAudible (trackMuteStates w t)
        | None => true
        end).
Proof.
  unfold stageMidi. simpl.
  destruct (playHeadState n) as [p|]; [destruct (didPlayheadJump _)|]; simpl;
    (destruct (trackMuteState n) as [t|];
     [destruct (shouldTrackContentsBeProcessed _); simpl|]);
    rewrite ?andb_true_r; reflexivity.
Qed.

(** When the modifier is not run, what is published is the staged list. *)
Lemma process_publishes_staged (n : ModifierNode) (w : World M) (pc : ProcessContext) :
  fst (stageMidi n w (midi (Node_getProcessedOutput (nodes w (input n))))) = false ->
  publishedMidi (process n w pc)
  = Some (midiMessageArray
            (snd (stageMidi n w (midi (Node_getProcessedOutput (nodes w (input n))))))).
Proof.
  intros H. unfold process.
  destruct (stageMidi _ _ _) as [shouldProcess n1]. simpl in H. subst.
  reflexivity.
Qed.

(** A render context always points to the scratch list of the node. *)
Lemma getPluginRenderContext_midi (n : ModifierNode) (w : World M) (R : Z)
    (destBuffer : AudioBuffer) (rc : PluginRenderContext) :
  getPluginRenderContext n w R destBuffer = Some rc ->
  rc_bufferForMidiMessages rc = Some (midiMessageArray n).
Proof.
  unfold getPluginRenderContext.
  destruct (audioRenderContextProvider n) as [a|].
  - intros H. injection H as <-. reflexivity.
  - destruct (playHeadState n) as [p|]; [|discriminate].
    intros H. injection H as <-. reflexivity.
Qed.

(** With a provider or a play head state, [process] has an outcome. *)
Lemma process_total (n : ModifierNode) (w : World M) (pc : ProcessContext) :
  audioRenderContextProvider n <> None \/ playHeadState n <> None ->
  exists n' w' pc', process n w pc = Some (n', w', pc').
Proof.
  intros Hmode. unfold process.
  pose proof (stageMidi_wiring n w (midi (Node_getProcessedOutput (nodes w (input n)))))
    as (_ & _ & Hprov & _ & Hph & _).
  destruct (stageMidi _ _ _) as [shouldProcess n1]. simpl in Hprov, Hph.
  destruct shouldProcess; [|eauto].
  unfold getPluginRenderContext. rewrite Hprov, Hph.
  destruct (audioRenderContextProvider n) as [a|].
  - destruct (applyToBuffer _ _) as [[m' destAfter] midiAfter]. eauto.
  - destruct (playHeadState n) as [p|].
    + destruct (applyToBuffer _ _) as [[m' destAfter] midiAfter]. eauto.
    + destruct Hmode as [H|H]; contradiction.
Qed.

(** The flag of the published list, when the staged flag is set and the
    modifier, if run, leaves it set. *)
Lemma process_keeps_flag (n n' : ModifierNode) (w w' : World M) (pc pc' : ProcessContext) :
  process n w pc = Some (n', w', pc') ->
  isAllNotesOff
    (midiMessageArray
       (snd (stageMidi n w (midi (Node_getProcessedOutput (nodes w (input n)))))))
  = true ->
  fst (stageMidi n w (midi (Node_getProcessedOutput (nodes w (input n))))) = false
  \/ keepsAllNotesOff (modifiers w (modifier n)) ->
  isAllNotesOff (midi (buffers pc')) = true.
Proof.
  unfold process.
  pose proof (stageMidi_wiring n w (midi (Node_getProcessedOutput (nodes w (input n)))))
    as (_ & Hmod & _).
  destruct (stageMidi _ _ _) as [shouldProcess n1]. simpl in *.
  intros Hp Hflag Hkeep.
  destruct shouldProcess.
  - destruct Hkeep as [Hf|Hkeep]; [discriminate|].
    destruct (getPluginRenderContext _ _ _ _) as [rc|] eqn:Hrc; [|discriminate].
    apply getPluginRenderContext_midi in Hrc.
    specialize (Hkeep rc (midiMessageArray n1)).
    rewrite Hmod in Hp.
    destruct (applyToBuffer _ _) as [[m' destAfter] midiAfter].
    injection Hp as <- <- <-. simpl in *. unfold copyFrom.
    destruct midiAfter as [l'|]; simpl; auto.
  - injection Hp as <- <- <-. exact Hflag.
Qed.

End Staging.

(** C5, as the code has it.  In a block in which the play head just jumped,
    the MIDI list has its all-notes-off flag set when the decision step is
    over, whatever [shouldProcess] is; [process] has an outcome, and the
    published list has the flag set when the modifier is not run, or is run
    and leaves the flag of the list it is handed set. *)
Theorem all_notes_off_on_jump {M : Type} {modifierClass : Modifier M}
    (n : ModifierNode) (w : World M) (pc : ProcessContext) (p : Addr) :
  playHeadState n = Some p ->
  didPlayheadJump (playHeadStates w p) = true ->
  let staged :=
    stageMidi n w (midi (Node_getProcessedOutput (nodes w (input n)))) in
  isAllNotesOff (midiMessageArray (snd staged)) = true
  /\ exists n' w' pc',
       process n w pc = Some (n', w', pc')
       /\ (fst staged = false \/ keepsAllNotesOff (modifiers w (modifier n)) ->
           isAllNotesOff (midi (buffers pc')) = true).
Proof.
  intros Hph Hjump staged.
  assert (Hflag : isAllNotesOff (midiMessageArray (snd staged)) = true).
  { unfold staged. rewrite stageMidi_flag. unfold playHeadJumped.
    rewrite Hph, Hjump. simpl. apply orb_true_r. }
  split; [exact Hflag|].
  destruct (process_total n w pc) as (n' & w' & pc' & Hp).
  { right. rewrite Hph. discriminate. }
  exists n', w', pc'. split; [exact Hp|].
  intros Hkeep. eapply process_keeps_flag; eassumption.
Qed.

Lemma testModifier_keepsAllNotesOff (count : Z) (enabled : bool) :
  keepsAllNotesOff (testModifier count enabled false).
Proof.
  intros rc l Hrc Hl. simpl. rewrite Hrc. exact Hl.
Defined.

Lemma all_notes_off_on_jump_witness :
  exists n' w' pc',
    process jumpNode jumpWorldQuiet (testProcessContext (stereoDest 1%float))
    = Some (n', w', pc')
    /\ isAllNotesOff (midi (buffers pc')) = true.
Proof.
  destruct (all_notes_off_on_jump (modifierClass := TestModifier_Modifier)
              jumpNode jumpWorldQuiet (testProcessContext (stereoDest 1%float))
              0%nat eq_refl eq_refl)
    as (_ & n' & w' & pc' & Hp & Hflag).
  exists n', w', pc'. split; [exact Hp|].
  apply Hflag. right. apply testModifier_keepsAllNotesOff.
Defined.

(** The play head just jumped, the modifier is enabled and consumes the MIDI
    list: the published list has no all-notes-off flag. *)
Lemma jump_flag_cleared_by_modifier :
  playHeadState jumpNode = Some 0%nat
  /\ didPlayheadJump (playHeadStates jumpWorld 0%nat) = true
  /\ publishedMidi
       (process jumpNode jumpWorld (testProcessContext (stereoDest 1%float)))
     = Some {| isAllNotesOff := false; messages := [] |}.
Proof. repeat split. Qed.

(** C6.  A mute state is attached; the track is muted at block N and stays
    muted through blocks N+1 and N+2 ([wasJustMuted] only at N, the contents
    not to be processed throughout) and the play head does not jump.  The
    three calls of [process] have outcomes; at block N the decision step
    sets the all-notes-off flag of the staged list, at N+1 and N+2 it leaves
    the upstream list, flag included, as it came; and whenever the modifier
    is not run, the staged list is the published one. *)
Theorem all_notes_off_on_mute_edge_once {M : Type} {modifierClass : Modifier M}
    (n0 : ModifierNode) (w0 w1 w2 : World M) (pc0 pc1 pc2 : ProcessContext)
    (t p : Addr) :
  trackMuteState n0 = Some t ->
  playHeadState n0 = Some p ->
  (forall w, In w [w0; w1; w2] ->
     shouldTrackContentsBeProcessed (trackMuteStates w t) = false
     /\ didPlayheadJump (playHeadStates w p) = false) ->
  wasJustMuted (trackMuteStates w0 t) = true ->
  wasJustMuted (trackMuteStates w1 t) = false ->
  wasJustMuted (trackMuteStates w2 t) = false ->
  let upstream (w : World M) := midi (Node_getProcessedOutput (nodes w (input n0))) in
  exists n1 wa o0 n2 wb o1 n3 wc o2,
    process n0 w0 pc0 = Some (n1, wa, o0)
    /\ process n1 w1 pc1 = Some (n2, wb, o1)
    /\ process n2 w2 pc2 = Some (n3, wc, o2)
    /\ midiMessageArray (snd (stageMidi n0 w0 (upstream w0))) = setAllNotesOff (upstream w0)
    /\ midiMessageArray (snd (stageMidi n1 w1 (upstream w1))) = upstream w1
    /\ midiMessageArray (snd (stageMidi n2 w2 (upstream w2))) = upstream w2
    /\ (fst (stageMidi n0 w0 (upstream w0)) = false ->
        midi (buffers o0) = setAllNotesOff (upstream w0))
    /\ (fst (stageMidi n1 w1 (upstream w1)) = false -> midi (buffers o1) = upstream w1)
    /\ (fst (stageMidi n2 w2 (upstream w2)) = false -> midi (buffers o2) = upstream w2).
Proof.
  intros Hmute Hph Hall Hj0 Hj1 Hj2 upstream.
  assert (Hstage : forall n w,
             sameWiring n0 n -> In w [w0; w1; w2] ->
             midiMessageArray (snd (stageMidi n w (upstream w)))
             = if wasJustMuted (trackMuteStates w t)
               then setAllNotesOff (upstream w) else upstream w).
  { intros n w (_ & _ & _ & Hm & Hp & _) Hin.
    destruct (Hall w Hin) as [Hc Hd].
    rewrite stageMidi_scratch. unfold playHeadJumped, muteEdge.
    rewrite Hm, Hp, Hmute, Hph, Hc, Hd. reflexivity. }
  assert (Hpub : forall n w pc n' w' pc',
             sameWiring n0 n -> process n w pc = Some (n', w', pc') ->
             fst (stageMidi n w (upstream w)) = false ->
             midi (buffers pc')
             = midiMessageArray (snd (stageMidi n w (upstream w)))).
  { intros n w pc n' w' pc' (Hin & _) Hp Hf. unfold upstream in *.
    rewrite <- Hin in *.
    pose proof (process_publishes_staged n w pc Hf) as H.
    rewrite Hp in H. simpl in H. injection H as H. exact H. }
  assert (Htotal : forall n w pc,
             sameWiring n0 n -> exists n' w' pc', process n w pc = Some (n', w', pc')).
  { intros n w pc (_ & _ & _ & _ & Hp & _). apply process_total.
    right. rewrite Hp, Hph. discriminate. }
  destruct (Htotal n0 w0 pc0 (sameWiring_refl n0)) as (n1 & wa & o0 & Hp0).
  pose proof (process_wiring _ _ _ _ _ _ Hp0) as Hw1.
  destruct (Htotal n1 w1 pc1 Hw1) as (n2 & wb & o1 & Hp1).
  pose proof (sameWiring_trans _ _ _ Hw1 (process_wiring _ _ _ _ _ _ Hp1)) as Hw2.
  destruct (Htotal n2 w2 pc2 Hw2) as (n3 & wc & o2 & Hp2).
  pose proof (Hstage n0 w0 (sameWiring_refl n0) (or_introl eq_refl)) as Hs0.
  pose proof (Hstage n1 w1 Hw1 (or_intror (or_introl eq_refl))) as Hs1.
  pose proof (Hstage n2 w2 Hw2 (or_intror (or_intror (or_introl eq_refl)))) as Hs2.
  rewrite Hj0 in Hs0. rewrite Hj1 in Hs1. rewrite Hj2 in Hs2.
  exists n1, wa, o0, n2, wb, o1, n3, wc, o2.
  repeat (split; [assumption|]).
  split; [|split].
  - intros Hf. rewrite <- Hs0. eapply Hpub; [apply sameWiring_refl|eassumption|exact Hf].
  - intros Hf. rewrite <- Hs1. eapply Hpub; eassumption.
  - intros Hf. rewrite <- Hs2. eapply Hpub; eassumption.
Qed.

Lemma mutedWorlds_muted (w : World TestModifier) :
  In w [mutedWorld true; mutedWorld false; mutedWorld false] ->
  shouldTrackContentsBeProcessed (trackMuteStates w 0%nat) = false
  /\ didPlayheadJump (playHeadStates w 0%nat) = false.
Proof.
  intros [<-|[<-|[<-|[]]]]; split; reflexivity.
Defined.

Lemma all_notes_off_on_mute_edge_witness :
  exists n1 wa o0 n2 wb o1 n3 wc o2,
    process mutedNode (mutedWorld true) (testProcessContext (stereoDest 1%float))
    = Some (n1, wa, o0)
    /\ process n1 (mutedWorld false) (testProcessContext (stereoDest 1%float))
       = Some (n2, wb, o1)
    /\ process n2 (mutedWorld false) (testProcessContext (stereoDest 1%float))
       = Some (n3, wc, o2)
    /\ midi (buffers o0) = testMidi true
    /\ midi (buffers o1) = testMidi false
    /\ midi (buffers o2) = testMidi false.
Proof.
  destruct (all_notes_off_on_mute_edge_once (modifierClass := TestModifier_Modifier)
              mutedNode (mutedWorld true) (mutedWorld false) (mutedWorld false)
              (testProcessContext (stereoDest 1%float))
              (testProcessContext (stereoDest 1%float))
              (testProcessContext (stereoDest 1%float))
              0%nat 0%nat eq_refl eq_refl mutedWorlds_muted eq_refl eq_refl eq_refl)
    as (n1 & wa & o0 & n2 & wb & o1 & n3 & wc & o2
        & Hp0 & Hp1 & Hp2 & _ & _ & _ & H0 & H1 & H2).
  exists n1, wa, o0, n2, wb, o1, n3, wc, o2.
  split; [exact Hp0|]. split; [exact Hp1|]. split; [exact Hp2|].
  pose proof (process_wiring _ _ _ _ _ _ Hp0) as Hw1.
  pose proof (sameWiring_trans _ _ _ Hw1 (process_wiring _ _ _ _ _ _ Hp1)) as Hw2.
  destruct Hw1 as (_ & _ & _ & Hm1 & _), Hw2 as (_ & _ & _ & Hm2 & _).
  split; [|split].
  - apply H0. reflexivity.
  - apply H1. rewrite stageMidi_shouldProcess, Hm1. reflexivity.
  - apply H2. rewrite stageMidi_shouldProcess, Hm2. reflexivity.
Defined.

(** C10.  A node built on a render context provider has a null play head
    state for its whole life, whatever is called on it.  So no call of
    [process] applies the play-head-jump rule: the decision step sets the
    all-notes-off flag of the staged list exactly when the upstream list has
    it or the mute-edge condition holds, also in a world where every play
    head just jumped; and that staged list is what is published when the
    modifier is not run. *)
Theorem provider_node_never_applies_jump_rule {M : Type} {modifierClass : Modifier M}
    (inputNode modifierToProcess : Addr) (sampleRateToUse : double)
    (blockSizeToUse : Z) (contextProvider : option Addr) (w0 : World M)
    (script : list (World M * Op)) :
  Forall
    (fun n =>
       playHeadState n = None
       /\ forall (w : World M) (pc : ProcessContext),
            let upstream := midi (Node_getProcessedOutput (nodes w (input n))) in
            let staged := stageMidi n w upstream in
            isAllNotesOff (midiMessageArray (snd staged))
            = (isAllNotesOff upstream || muteEdge n w)
            /\ messages (midiMessageArray (snd staged)) = messages upstream
            /\ (fst staged = false ->
                publishedMidi (process n w pc) = Some (midiMessageArray (snd staged))))
    (lifetime
       (fst (ModifierNode_withProvider inputNode modifierToProcess sampleRateToUse
               blockSizeToUse contextProvider w0))
       script).
Proof.
  eapply Forall_impl; [|apply lifetime_wiring].
  intros n (_ & _ & _ & _ & Hph & _). simpl in Hph.
  split; [exact Hph|].
  intros w pc upstream staged. unfold staged.
  rewrite stageMidi_flag, stageMidi_messages.
  unfold playHeadJumped. rewrite Hph. simpl.
  split; [reflexivity|]. split; [reflexivity|].
  apply process_publishes_staged.
Qed.

Example provider_node_ignores_jump :
  playHeadState providerNode = None
  /\ didPlayheadJump (playHeadStates jumpWorldQuiet 0%nat) = true
  /\ midiMessageArray (snd (stageMidi providerNode jumpWorldQuiet (testMidi false)))
     = testMidi false.
Proof. repeat split. Qed.

(** ** Lifecycle *)

Lemma countDeinitialise_app (a : Addr) (cs ds : list ModifierCall) :
  countDeinitialise a (cs ++ ds)
  = (countDeinitialise a cs + countDeinitialise a ds)%nat.
Proof.
  unfold countDeinitialise. rewrite filter_app, length_app. reflexivity.
Qed.

(** Both constructors initialise the modifier once and leave the node
    initialised. *)
Lemma constructors_initialise {M : Type} {modifierClass : Modifier M}
    (inputNode modifierToProcess : Addr) (sampleRateToUse : double)
    (blockSizeToUse : Z) (trackMuteStateToUse contextProvider : option Addr)
    (playHeadStateToUse : Addr) (rendering : bool) (w : World M) :
  let byPlayHead :=
    ModifierNode_withPlayHead inputNode modifierToProcess sampleRateToUse
      blockSizeToUse trackMuteStateToUse playHeadStateToUse rendering w in
  let byProvider :=
    ModifierNode_withProvider inputNode modifierToProcess sampleRateToUse
      blockSizeToUse contextProvider w in
  isInitialised (fst byPlayHead) = true
  /\ isInitialised (fst byProvider) = true
  /\ calls (snd byPlayHead)
     = calls w ++ [CallInitialise modifierToProcess sampleRateToUse blockSizeToUse]
  /\ calls (snd byProvider)
     = calls w ++ [CallInitialise modifierToProcess sampleRateToUse blockSizeToUse].
Proof. repeat split. Qed.

(** C4, as the code has it.  Destroying an initialised node whose modifier
    reports that it does not need initialising (it is initialised) calls
    [baseClassDeinitialise] on it exactly once, and makes no other call;
    destroying a node whose modifier reports that it needs initialising (it
    was never initialised, or its owner deinitialised it already) calls
    nothing and leaves the world as it was. *)
Theorem destroy_deinitialises_once {M : Type} {modifierClass : Modifier M}
    (n : ModifierNode) (w : World M) :
  isInitialised n = true ->
  let unit := modifiers w (modifier n) in
  (baseClassNeedsInitialising unit = false ->
   calls (destroy n w) = calls w ++ [CallDeinitialise (modifier n)]
   /\ countDeinitialise (modifier n) (calls (destroy n w))
      = S (countDeinitialise (modifier n) (calls w))
   /\ modifiers (destroy n w) (modifier n) = baseClassDeinitialise unit)
  /\ (baseClassNeedsInitialising unit = true -> destroy n w = w).
Proof.
  intros Hinit unit. unfold destroy. fold unit. rewrite Hinit. split.
  - intros Hneeds. rewrite Hneeds. simpl.
    split; [reflexivity|]. split.
    + rewrite countDeinitialise_app. unfold countDeinitialise at 2. simpl.
      rewrite Nat.eqb_refl. simpl. lia.
    + rewrite Nat.eqb_refl. reflexivity.
  - intros Hneeds. rewrite Hneeds. reflexivity.
Qed.

(** Constructing a node on a fresh modifier and destroying it calls
    [baseClassDeinitialise] once; if the owner of the modifier deinitialised
    it in between, destroying the node calls nothing. *)
Lemma destroy_deinitialises_once_witness :
  countDeinitialise 0%nat (calls (destroy (fst constructed) (snd constructed))) = 1%nat
  /\ destroy (fst constructed) ownerDeinitialised = ownerDeinitialised.
Proof.
  split.
  - exact (proj1 (proj2 (proj1 (destroy_deinitialises_once
                                   (modifierClass := TestModifier_Modifier)
                                   (fst constructed) (snd constructed) eq_refl)
                                eq_refl))).
  - exact (proj2 (destroy_deinitialises_once
                    (modifierClass := TestModifier_Modifier)
                    (fst constructed) ownerDeinitialised eq_refl)
                 eq_refl).
Defined.

(** The modifier of the constructed node reports that it does not need
    initialising, and destroying the node calls [baseClassDeinitialise]. *)
Lemma destroy_deinitialises_initialised_modifier :
  baseClassNeedsInitialising (modifiers (snd constructed) (modifier (fst constructed)))
  = false
  /\ countDeinitialise 0%nat (calls (snd constructed)) = 0%nat
  /\ countDeinitialise 0%nat (calls (destroy (fst constructed) (snd constructed)))
     = 1%nat
  /\ calls (destroy (fst constructed) (snd constructed))
     = [CallInitialise 0%nat 44100%float 512; CallDeinitialise 0%nat].
Proof. repeat split. Qed.

(** ** Render contexts *)

(** C7.  For a node built with a play head state, at any moment of its life,
    the render context for the reference sample position [R] has, as edit
    time, the timeline position the play head maps [R] to, in seconds at the
    sample rate of the constructor, plus the automation adjustment time;
    the playing and scrubbing flags are those of the play head, the
    rendering flag is the one given to the constructor, and the last flag is
    false.  The buffer members are the destination buffer, start 0, its
    sample count, the scratch MIDI list and MIDI offset 0. *)
Theorem playHead_render_context {M : Type} {modifierClass : Modifier M}
    (inputNode modifierToProcess : Addr) (sampleRateToUse : double)
    (blockSizeToUse : Z) (trackMuteStateToUse : option Addr)
    (playHeadStateToUse : Addr) (rendering : bool) (w0 : World M)
    (script : list (World M * Op)) :
  Forall
    (fun n =>
       forall (w : World M) (R : Z) (destBuffer : AudioBuffer),
         let playHeadNow := playHead (playHeadStates w playHeadStateToUse) in
         getPluginRenderContext n w R destBuffer
         = Some
             {| rc_destBuffer := Some destBuffer;
                rc_destBufferChannels :=
                  canonicalChannelSet (bufferGetNumChannels destBuffer);
                rc_bufferStartSample := 0;
                rc_bufferNumSamples := getNumSamples destBuffer;
                rc_bufferForMidiMessages := Some (midiMessageArray n);
                rc_midiBufferOffset := 0%float;
                rc_editTime :=
                  PrimFloat.add
                    (sampleToTime
                       (referenceSamplePositionToTimelinePosition playHeadNow R)
                       sampleRateToUse)
                    (automationAdjustmentTime n);
                rc_isPlaying := isPlaying playHeadNow;
                rc_isScrubbing := isUserDragging playHeadNow;
                rc_isRendering := rendering;
                rc_allowBypassedProcessing := false |})
    (lifetime
       (fst (ModifierNode_withPlayHead inputNode modifierToProcess sampleRateToUse
               blockSizeToUse trackMuteStateToUse playHeadStateToUse rendering w0))
       script).
Proof.
  eapply Forall_impl; [|apply lifetime_wiring].
  intros n (_ & _ & Hprov & _ & Hph & Hrend & _ & Hsr).
  simpl in Hprov, Hph, Hrend, Hsr.
  intros w R destBuffer playHeadNow.
  unfold getPluginRenderContext. rewrite Hprov, Hph, Hrend, Hsr. reflexivity.
Qed.

(** C8.  For a node built on a render context provider, at any moment of its
    life, the render context is the one of the provider with the
    destination buffer, start 0, the sample count of the destination, the
    scratch MIDI list and MIDI offset 0 written over it; the layout, the
    edit time and the four flags are those of the provider. *)
Theorem provider_render_context {M : Type} {modifierClass : Modifier M}
    (inputNode modifierToProcess : Addr) (sampleRateToUse : double)
    (blockSizeToUse : Z) (contextProvider : Addr) (w0 : World M)
    (script : list (World M * Op)) :
  Forall
    (fun n =>
       forall (w : World M) (R : Z) (destBuffer : AudioBuffer),
         let provided := getContext (inputProviders w contextProvider) in
         getPluginRenderContext n w R destBuffer
         = Some
             {| rc_destBuffer := Some destBuffer;
                rc_destBufferChannels := rc_destBufferChannels provided;
                rc_bufferStartSample := 0;
                rc_bufferNumSamples := getNumSamples destBuffer;
                rc_bufferForMidiMessages := Some (midiMessageArray n);
                rc_midiBufferOffset := 0%float;
                rc_editTime := rc_editTime provided;
                rc_isPlaying := rc_isPlaying provided;
                rc_isScrubbing := rc_isScrubbing provided;
                rc_isRendering := rc_isRendering provided;
                rc_allowBypassedProcessing := rc_allowBypassedProcessing provided |})
    (lifetime
       (fst (ModifierNode_withProvider inputNode modifierToProcess sampleRateToUse
               blockSizeToUse (Some contextProvider) w0))
       script).
Proof.
  eapply Forall_impl; [|apply lifetime_wiring].
  intros n (_ & _ & Hprov & _). simpl in Hprov.
  intros w R destBuffer provided.
  unfold getPluginRenderContext. rewrite Hprov. reflexivity.
Qed.

Example provider_render_context_example :
  getPluginRenderContext providerNode freshWorld 1000
    (createAudioBuffer (stereoDest 1%float))
  = Some
      {| rc_destBuffer := Some (createAudioBuffer (stereoDest 1%float));
         rc_destBufferChannels := customChannelSet [true; false; true];
         rc_bufferStartSample := 0;
         rc_bufferNumSamples := 2;
         rc_bufferForMidiMessages := Some {| isAllNotesOff := false; messages := [] |};
         rc_midiBufferOffset := 0%float;
         rc_editTime := 12%float;
         rc_isPlaying := false;
         rc_isScrubbing := true;
         rc_isRendering := true;
         rc_allowBypassedProcessing := true |}.
Proof. reflexivity. Qed.

Example playHead_render_context_example :
  option_map rc_editTime
    (getPluginRenderContext
       (prepareToPlay latencyNode latencyWorld latencyInfo) latencyWorld 44000
       (createAudioBuffer (stereoDest 1%float)))
  = Some (PrimFloat.sub (PrimFloat.div 44100%float 44100%float)
            (PrimFloat.div 16%float 44100%float)).
Proof. vm_compute. reflexivity. Qed.

(** * Further properties of the node *)

(** ** Properties and preparation *)

(** X1.  [getNodeProperties] never narrows what the upstream node reports:
    the channel count is at least the upstream one and at least the number
    of audio inputs of the modifier, audio and MIDI stay reported when the
    upstream reports them, the latency is the upstream one unchanged, and
    the node ID is a [size_t] value. *)
Theorem getNodeProperties_never_narrows {M : Type} {modifierClass : Modifier M}
    (n : ModifierNode) (w : World M) :
  let upstream := Node_getNodeProperties (nodes w (input n)) in
  let unit := modifiers w (modifier n) in
  let props := getNodeProperties n w in
  numberOfChannels upstream <= numberOfChannels props
  /\ Z.of_nat (List.length (getAudioInputNames unit)) <= numberOfChannels props
  /\ implb (hasAudio upstream) (hasAudio props) = true
  /\ implb (hasMidi upstream) (hasMidi props) = true
  /\ latencyNumSamples props = latencyNumSamples upstream
  /\ 0 <= nodeID props < 2 ^ 64.
Proof.
  cbv zeta. unfold getNodeProperties. simpl. rewrite jmax_is_max.
  split; [lia|]. split; [lia|].
  split; [destruct (hasAudio _); reflexivity|].
  split; [destruct (hasMidi _); reflexivity|].
  split; [reflexivity|].
  unfold size_t_cast. apply Z.mod_pos_bound. lia.
Qed.

(** X2.  Behind a modifier with no audio and no MIDI input, and an upstream
    node with a channel count that is not negative, the properties are the
    upstream ones with only the node ID replaced. *)
Theorem getNodeProperties_of_portless_modifier {M : Type} {modifierClass : Modifier M}
    (n : ModifierNode) (w : World M) :
  let upstream := Node_getNodeProperties (nodes w (input n)) in
  let unit := modifiers w (modifier n) in
  getAudioInputNames unit = [] ->
  getMidiInputNames unit = [] ->
  0 <= numberOfChannels upstream ->
  getNodeProperties n w
  = {| hasAudio := hasAudio upstream;
       hasMidi := hasMidi upstream;
       numberOfChannels := numberOfChannels upstream;
       latencyNumSamples := latencyNumSamples upstream;
       nodeID := size_t_cast (itemID_getRawID unit) |}.
Proof.
  intros upstream unit Ha Hm Hpos. unfold getNodeProperties.
  fold upstream. fold unit. rewrite Ha, Hm. simpl.
  rewrite jmax_is_max, !orb_false_r. f_equal. lia.
Qed.

Lemma getNodeProperties_of_portless_modifier_witness :
  getNodeProperties passThroughNode portlessWorld
  = {| hasAudio := true; hasMidi := false; numberOfChannels := 1;
       latencyNumSamples := 0; nodeID := 42 |}.
Proof.
  apply (getNodeProperties_of_portless_modifier
           (modifierClass := TestModifier_Modifier)
           passThroughNode portlessWorld eq_refl eq_refl).
  simpl. lia.
Defined.

Lemma prepareToPlay_unchanged {M : Type} {modifierClass : Modifier M}
    (n : ModifierNode) (w : World M) (info : PlaybackInitialisationInfo) :
  latencyNumSamples (Node_getNodeProperties (nodes w (input n))) <= 0 ->
  prepareToPlay n w info = n.
Proof.
  intros H. unfold prepareToPlay. rewrite getNodeProperties_latency.
  destruct (Z.ltb_spec 0
              (latencyNumSamples (Node_getNodeProperties (nodes w (input n)))));
    [lia|reflexivity].
Qed.

(** X3.  When the upstream latency is zero or negative, [prepareToPlay]
    changes nothing: it does not reset an automation adjustment time that an
    earlier call has set. *)
Theorem prepareToPlay_without_latency {M : Type} {modifierClass : Modifier M}
    (n : ModifierNode) (w : World M) (info : PlaybackInitialisationInfo) :
  latencyNumSamples (Node_getNodeProperties (nodes w (input n))) <= 0 ->
  prepareToPlay n w info = n
  /\ automationAdjustmentTime (prepareToPlay n w info) = automationAdjustmentTime n.
Proof.
  intros H. rewrite (prepareToPlay_unchanged n w info H). split; reflexivity.
Qed.

Lemma prepareToPlay_without_latency_witness :
  automationAdjustmentTime
    (prepareToPlay (prepareToPlay latencyNode latencyWorld latencyInfo)
       latencyGoneWorld latencyInfo)
  = PrimFloat.opp (PrimFloat.div (double_of_Z 16) 44100%float).
Proof.
  rewrite (proj2 (prepareToPlay_without_latency
                    (modifierClass := TestModifier_Modifier)
                    (prepareToPlay latencyNode latencyWorld latencyInfo)
                    latencyGoneWorld latencyInfo (Z.le_refl 0))).
  reflexivity.
Defined.

(** X4.  [prepareToPlay] is idempotent in a given world, does not depend on
    the initialisation info it is passed, and leaves the wiring and the
    scratch MIDI list of the node alone. *)
Theorem prepareToPlay_idempotent {M : Type} {modifierClass : Modifier M}
    (n : ModifierNode) (w : World M) (info info' : PlaybackInitialisationInfo) :
  prepareToPlay (prepareToPlay n w info) w info' = prepareToPlay n w info
  /\ prepareToPlay n w info' = prepareToPlay n w info
  /\ midiMessageArray (prepareToPlay n w info) = midiMessageArray n
  /\ sameWiring n (prepareToPlay n w info).
Proof.
  split; [|split; [reflexivity|split]].
  - unfold prepareToPlay. rewrite !getNodeProperties_latency.
    destruct (0 <? latencyNumSamples (Node_getNodeProperties (nodes w (input n))))
      eqn:Hl; simpl; rewrite ?Hl; reflexivity.
  - unfold prepareToPlay. destruct (0 <? _); reflexivity.
  - apply prepareToPlay_wiring.
Qed.

(** ** The decision to run the modifier *)

(** When [shouldProcess] comes out false, [process] has an outcome in every
    mode: the world is left as it was, the audio is the copy-through and the
    MIDI list is the staged one. *)
Lemma process_when_not_processing {M : Type} {modifierClass : Modifier M}
    (n : ModifierNode) (w : World M) (pc : ProcessContext) :
  let inputBuffers := Node_getProcessedOutput (nodes w (input n)) in
  fst (stageMidi n w (midi inputBuffers)) = false ->
  process n w pc
  = Some (snd (stageMidi n w (midi inputBuffers)), w,
          publish (snd (stageMidi n w (midi inputBuffers))) pc
            (copyInputsToOutputs (audio inputBuffers) (audio (buffers pc)))).
Proof.
  intros inputBuffers H. unfold process. fold inputBuffers.
  destruct (stageMidi n w (midi inputBuffers)) as [shouldProcess n1].
  simpl in H. subst. reflexivity.
Qed.

(** X5.  A disabled modifier is never run, whatever the mute state and the
    play head say and even on a node with neither provider nor play head:
    [process] has an outcome, makes no call on the modifier and leaves the
    world as it was; the audio published is the copy-through and the MIDI
    published holds the upstream events. *)
Theorem disabled_modifier_is_never_run {M : Type} {modifierClass : Modifier M}
    (n : ModifierNode) (w : World M) (pc : ProcessContext) :
  let inputBuffers := Node_getProcessedOutput (nodes w (input n)) in
  enabledParam (modifiers w (modifier n)) = false ->
  exists n' pc',
    process n w pc = Some (n', w, pc')
    /\ audio (buffers pc')
       = copyInputsToOutputs (audio inputBuffers) (audio (buffers pc))
    /\ messages (midi (buffers pc')) = messages (midi inputBuffers)
    /\ isAllNotesOff (midi (buffers pc'))
       = (isAllNotesOff (midi inputBuffers) || (playHeadJumped n w || muteEdge n w)).
Proof.
  intros inputBuffers Hoff.
  assert (Hs : fst (stageMidi n w (midi inputBuffers)) = false).
  { rewrite stageMidi_shouldProcess, Hoff. reflexivity. }
  eexists. eexists. split.
  - apply (process_when_not_processing n w pc Hs).
  - simpl. unfold copyFrom.
    split; [reflexivity|]. split; [apply stageMidi_messages|apply stageMidi_flag].
Qed.

Lemma disabled_modifier_is_never_run_witness :
  exists n' pc',
    process passThroughNode passThroughWorld (testProcessContext (stereoDest 1%float))
    = Some (n', passThroughWorld, pc')
    /\ calls passThroughWorld = [].
Proof.
  destruct (disabled_modifier_is_never_run (modifierClass := TestModifier_Modifier)
              passThroughNode passThroughWorld
              (testProcessContext (stereoDest 1%float)) eq_refl)
    as (n' & pc' & Hp & _).
  exists n', pc'. split; [exact Hp|reflexivity].
Defined.

(** X6.  On a track whose contents are not to be processed and which is not
    to be audible, the modifier is not run even when it is enabled, and the
    node does not silence anything: the audio published is the
    copy-through, the MIDI published holds the upstream events, and the
    all-notes-off flag is the upstream one, or set when the play head just
    jumped or the track was just muted. *)
Theorem muted_track_passes_through {M : Type} {modifierClass : Modifier M}
    (n : ModifierNode) (w : World M) (pc : ProcessContext) (t : Addr) :
  let inputBuffers := Node_getProcessedOutput (nodes w (input n)) in
  trackMuteState n = Some t ->
  shouldTrackContentsBeProcessed (trackMuteStates w t) = false ->
  shouldTrackBeAudible (trackMuteStates w t) = false ->
  exists n' pc',
    process n w pc = Some (n', w, pc')
    /\ audio (buffers pc')
       = copyInputsToOutputs (audio inputBuffers) (audio (buffers pc))
    /\ messages (midi (buffers pc')) = messages (midi inputBuffers)
    /\ isAllNotesOff (midi (buffers pc'))
       = (isAllNotesOff (midi inputBuffers)
          || (playHeadJumped n w || wasJustMuted (trackMuteStates w t))).
Proof.
  intros inputBuffers Hm Hc Ha.
  assert (Hs : fst (stageMidi n w (midi inputBuffers)) = false).
  { rewrite stageMidi_shouldProcess, Hm, Hc, Ha. apply andb_false_r. }
  eexists. eexists. split.
  - apply (process_when_not_processing n w pc Hs).
  - simpl. unfold copyFrom.
    split; [reflexivity|]. split; [apply stageMidi_messages|].
    rewrite stageMidi_flag. unfold muteEdge. rewrite Hm, Hc. reflexivity.
Qed.

Lemma muted_track_passes_through_witness :
  exists n' pc',
    process mutedNode (mutedWorld true) (testProcessContext (stereoDest 1%float))
    = Some (n', mutedWorld true, pc')
    /\ channels (audio (buffers pc'))
       = [[0.5%float; 0.25%float]; [1%float; 1%float]]
    /\ midi (buffers pc') = testMidi true.
Proof.
  destruct (muted_track_passes_through (modifierClass := TestModifier_Modifier)
              mutedNode (mutedWorld true)
              (testProcessContext (stereoDest 1%float)) 0%nat
              eq_refl eq_refl eq_refl)
    as (n' & pc' & Hp & Haudio & Hmsg & Hflag).
  exists n', pc'. split; [exact Hp|]. split.
  - rewrite Haudio. reflexivity.
  - destruct (midi (buffers pc')) as [f ms]. simpl in *. subst. reflexivity.
Defined.

(** X7.  While the contents of the track are to be processed, an attached
    mute state has no say: [shouldProcess] is the enable parameter alone,
    whatever the audible answer, and the flag is not forced even if the
    track was just muted; only a jump of the play head sets it. *)
Theorem mute_state_idle_while_contents_processed
    {M : Type} {modifierClass : Modifier M}
    (n : ModifierNode) (w : World M) (l : MidiMessageArray) (t : Addr) :
  trackMuteState n = Some t ->
  shouldTrackContentsBeProcessed (trackMuteStates w t) = true ->
  fst (stageMidi n w l) = enabledParam (modifiers w (modifier n))
  /\ midiMessageArray (snd (stageMidi n w l))
     = (if playHeadJumped n w then setAllNotesOff l else l).
Proof.
  intros Hm Hc. split.
  - rewrite stageMidi_shouldProcess, Hm, Hc. apply andb_true_r.
  - rewrite stageMidi_scratch. unfold muteEdge. rewrite Hm, Hc.
    rewrite orb_false_r. reflexivity.
Qed.

Lemma mute_state_idle_witness :
  fst (stageMidi mutedNode contentsProcessedWorld (testMidi false)) = true
  /\ midiMessageArray (snd (stageMidi mutedNode contentsProcessedWorld (testMidi false)))
     = testMidi false.
Proof.
  exact (mute_state_idle_while_contents_processed
           (modifierClass := TestModifier_Modifier)
           mutedNode contentsProcessedWorld (testMidi false) 0%nat
           eq_refl eq_refl).
Defined.

(** X8.  The decision step only restricts: [shouldProcess] can come out true
    only for an enabled modifier; the staged list holds the upstream events,
    none dropped or added; and an all-notes-off flag set upstream is never
    cleared. *)
Theorem decision_step_only_restricts {M : Type} {modifierClass : Modifier M}
    (n : ModifierNode) (w : World M) (l : MidiMessageArray) :
  implb (fst (stageMidi n w l)) (enabledParam (modifiers w (modifier n))) = true
  /\ messages (midiMessageArray (snd (stageMidi n w l))) = messages l
  /\ implb (isAllNotesOff l) (isAllNotesOff (midiMessageArray (snd (stageMidi n w l))))
     = true.
Proof.
  split; [|split].
  - rewrite stageMidi_shouldProcess.
    destruct (enabledParam _); [apply implb_true_r|reflexivity].
  - apply stageMidi_messages.
  - rewrite stageMidi_flag. destruct (isAllNotesOff l); reflexivity.
Qed.

(** ** Outcomes of [process] *)

Lemma process_none_iff {M : Type} {modifierClass : Modifier M}
    (n : ModifierNode) (w : World M) (pc : ProcessContext) :
  process n w pc = None
  <-> (fst (stageMidi n w (midi (Node_getProcessedOutput (nodes w (input n))))) = true
       /\ audioRenderContextProvider n = None
       /\ playHeadState n = None).
Proof.
  split.
  - intros Hnone.
    destruct (fst (stageMidi n w (midi (Node_getProcessedOutput (nodes w (input n))))))
      eqn:Hs.
    + destruct (audioRenderContextProvider n) as [a|] eqn:Ha.
      * destruct (process_total n w pc) as (n' & w' & pc' & Hp);
          [left; rewrite Ha; discriminate|congruence].
      * destruct (playHeadState n) as [p|] eqn:Hp0.
        -- destruct (process_total n w pc) as (n' & w' & pc' & Hp);
             [right; rewrite Hp0; discriminate|congruence].
        -- repeat split.
    + rewrite (process_when_not_processing n w pc Hs) in Hnone. discriminate.
  - intros (Hs & Ha & Hp). unfold process.
    pose proof (stageMidi_wiring n w (midi (Node_getProcessedOutput (nodes w (input n)))))
      as (_ & _ & Hprov & _ & Hph & _).
    destruct (stageMidi _ _ _) as [shouldProcess n1]. simpl in *. subst.
    unfold getPluginRenderContext. rewrite Hprov, Hph, Ha, Hp. reflexivity.
Qed.





(** X11.  A node built with a null context provider cannot run its modifier:
    at any moment of its life, [process] has no outcome exactly when
    [shouldProcess] comes out true. *)
Theorem null_provider_node_cannot_run_modifier
    {M : Type} {modifierClass : Modifier M}
    (inputNode modifierToProcess : Addr) (sampleRateToUse : double)
    (blockSizeToUse : Z) (w0 : World M) (script : list (World M * Op)) :
  Forall
    (fun n =>
       forall (w : World M) (pc : ProcessContext),
         process n w pc = None
         <-> fst (stageMidi n w (midi (Node_getProcessedOutput (nodes w (input n)))))
             = true)
    (lifetime
       (fst (ModifierNode_withProvider inputNode modifierToProcess sampleRateToUse
               blockSizeToUse None w0))
       script).
Proof.
  eapply Forall_impl; [|apply lifetime_wiring].
  intros n (_ & _ & Ha & _ & Hp & _) w pc. simpl in Ha, Hp.
  rewrite process_none_iff.
  split; [intros (H & _); exact H|intros H; repeat split; assumption].
Qed.

(** ** What the modifier is handed *)

Lemma render_context_members {M : Type} {modifierClass : Modifier M}
    (n : ModifierNode) (w : World M) (R : Z) (destBuffer : AudioBuffer)
    (rc : PluginRenderContext) :
  getPluginRenderContext n w R destBuffer = Some rc ->
  rc_destBuffer rc = Some destBuffer
  /\ rc_bufferStartSample rc = 0
  /\ rc_bufferNumSamples rc = getNumSamples destBuffer
  /\ rc_bufferForMidiMessages rc = Some (midiMessageArray n)
  /\ rc_midiBufferOffset rc = 0%float.
Proof.
  unfold getPluginRenderContext.
  destruct (audioRenderContextProvider n) as [a|].
  - intros H. injection H as <-. repeat split.
  - destruct (playHeadState n) as [p|]; [|discriminate].
    intros H. injection H as <-. repeat split.
Qed.

(** X12.  In either mode, a render context points to the destination buffer
    and to the scratch MIDI list of the node, starts at sample 0, spans the
    whole destination buffer and has a MIDI offset of zero. *)
Theorem render_context_spans_destination {M : Type} {modifierClass : Modifier M}
    (n : ModifierNode) (w : World M) (R : Z) (destBuffer : AudioBuffer)
    (rc : PluginRenderContext) :
  getPluginRenderContext n w R destBuffer = Some rc ->
  rc_destBuffer rc = Some destBuffer
  /\ rc_bufferStartSample rc = 0
  /\ rc_bufferNumSamples rc = getNumSamples destBuffer
  /\ rc_bufferForMidiMessages rc = Some (midiMessageArray n)
  /\ rc_midiBufferOffset rc = 0%float.
Proof. apply render_context_members. Qed.

Lemma render_context_spans_destination_witness :
  exists rc,
    getPluginRenderContext providerNode freshWorld 1000
      (createAudioBuffer (stereoDest 1%float)) = Some rc
    /\ rc_bufferStartSample rc = 0
    /\ rc_bufferNumSamples rc = 2.
Proof.
  eexists. split; [reflexivity|].
  destruct (render_context_spans_destination
              (modifierClass := TestModifier_Modifier)
              providerNode freshWorld 1000
              (createAudioBuffer (stereoDest 1%float)) _ eq_refl)
    as (_ & Hstart & Hnum & _).
  split; [exact Hstart|exact Hnum].
Defined.

(** X13.  When the modifier is run, [process] makes exactly one call on it,
    [applyToBuffer], with a context whose destination buffer is the
    copy-through of the upstream audio into the destination block (so it has
    the frame count and the channel count of the destination, not of the
    upstream) and whose MIDI list is the staged one; the modifier is left in
    the state that call yields. *)
Theorem process_hands_copy_through_to_modifier
    {M : Type} {modifierClass : Modifier M}
    (n n' : ModifierNode) (w w' : World M) (pc pc' : ProcessContext) :
  let inputBuffers := Node_getProcessedOutput (nodes w (input n)) in
  let staged := stageMidi n w (midi inputBuffers) in
  let block := copyInputsToOutputs (audio inputBuffers) (audio (buffers pc)) in
  process n w pc = Some (n', w', pc') ->
  fst staged = true ->
  exists rc,
    getPluginRenderContext (snd staged) w (getStart (referenceSampleRange pc))
      (createAudioBuffer block) = Some rc
    /\ calls w' = calls w ++ [CallApplyToBuffer (modifier n) rc]
    /\ modifiers w' (modifier n) = fst (fst (applyToBuffer (modifiers w (modifier n)) rc))
    /\ rc_destBuffer rc = Some (createAudioBuffer block)
    /\ rc_bufferForMidiMessages rc = Some (midiMessageArray (snd staged))
    /\ rc_bufferNumSamples rc = Z.of_nat (getNumFrames (audio (buffers pc)))
    /\ bufferGetNumChannels (createAudioBuffer block)
       = Z.of_nat (getNumChannels (audio (buffers pc))).
Proof.
  intros inputBuffers staged block.
  unfold process. fold inputBuffers. fold block.
  pose proof (stageMidi_wiring n w (midi inputBuffers)) as (_ & Hmod & _).
  fold staged in Hmod. fold staged.
  destruct staged as [shouldProcess n1] eqn:Hst. simpl in *.
  intros Hp Hs. subst shouldProcess.
  destruct (getPluginRenderContext n1 w _ _) as [rc|] eqn:Hrc; [|discriminate].
  exists rc. split; [reflexivity|].
  pose proof (render_context_members n1 w _ _ rc Hrc) as (Hd & _ & Hn & Hm & _).
  rewrite Hmod in Hp.
  destruct (applyToBuffer (modifiers w (modifier n)) rc) as [[m' destAfter] midiAfter].
  injection Hp as <- <- <-. simpl.
  rewrite Nat.eqb_refl.
  split; [reflexivity|]. split; [reflexivity|].
  split; [exact Hd|]. split; [exact Hm|].
  pose proof (copyInputsToOutputs_shape (audio inputBuffers) (audio (buffers pc)))
    as [Hf Hc].
  fold block in Hf, Hc.
  split.
  - rewrite Hn. unfold getNumSamples, createAudioBuffer, getNumFrames in *. simpl.
    rewrite Hf. reflexivity.
  - unfold bufferGetNumChannels, createAudioBuffer, getNumChannels in *. simpl.
    rewrite Hc. reflexivity.
Qed.

Lemma process_hands_copy_through_witness :
  exists n' w' pc' rc,
    process passThroughNode runWorld (testProcessContext (stereoDest 1%float))
    = Some (n', w', pc')
    /\ calls w' = calls runWorld ++ [CallApplyToBuffer 0%nat rc]
    /\ rc_destBuffer rc
       = Some (createAudioBuffer
                 (copyInputsToOutputs monoInput (stereoDest 1%float))).
Proof.
  destruct (process passThroughNode runWorld (testProcessContext (stereoDest 1%float)))
    as [[[n' w'] pc']|] eqn:Hp.
  - destruct (process_hands_copy_through_to_modifier
                (modifierClass := TestModifier_Modifier)
                passThroughNode n' runWorld w'
                (testProcessContext (stereoDest 1%float)) pc' Hp eq_refl)
      as (rc & _ & Hcalls & _ & Hdest & _).
    exists n', w', pc', rc. split; [reflexivity|]. split; [exact Hcalls|exact Hdest].
  - vm_compute in Hp. discriminate Hp.
Defined.

(** X14.  [process] touches nothing in the world but the modifier it hosts:
    the upstream nodes, mute states, play head states, providers and every
    other modifier are as before, and no [baseClassDeinitialise] call is
    recorded.  The published block keeps the reference sample range and the
    frame count of the block it was given. *)
Theorem process_touches_only_its_modifier {M : Type} {modifierClass : Modifier M}
    (n n' : ModifierNode) (w w' : World M) (pc pc' : ProcessContext) :
  process n w pc = Some (n', w', pc') ->
  nodes w' = nodes w
  /\ trackMuteStates w' = trackMuteStates w
  /\ playHeadStates w' = playHeadStates w
  /\ inputProviders w' = inputProviders w
  /\ (forall a, a <> modifier n -> modifiers w' a = modifiers w a)
  /\ (forall a, countDeinitialise a (calls w') = countDeinitialise a (calls w))
  /\ referenceSampleRange pc' = referenceSampleRange pc
  /\ getNumFrames (audio (buffers pc')) = getNumFrames (audio (buffers pc)).
Proof.
  unfold process.
  pose proof (stageMidi_wiring n w (midi (Node_getProcessedOutput (nodes w (input n)))))
    as (_ & Hmod & _).
  pose proof (copyInputsToOutputs_shape
                (audio (Node_getProcessedOutput (nodes w (input n))))
                (audio (buffers pc))) as [Hf _].
  destruct (stageMidi _ _ _) as [shouldProcess n1]. simpl in Hmod.
  destruct shouldProcess.
  - destruct (getPluginRenderContext _ _ _ _) as [rc|]; [|discriminate].
    destruct (applyToBuffer _ _) as [[m' destAfter] midiAfter].
    intros H. injection H as <- <- <-. simpl.
    repeat (split; [reflexivity|]).
    split; [|split; [|split]].
    + intros a Ha. rewrite Hmod.
      destruct (Nat.eqb_spec a (modifier n)); [contradiction|reflexivity].
    + intros a. rewrite countDeinitialise_app. unfold countDeinitialise at 2.
      simpl. lia.
    + reflexivity.
    + destruct destAfter; exact Hf.
  - intros H. injection H as <- <- <-. simpl.
    repeat (split; [reflexivity|]). exact Hf.
Qed.

Lemma process_touches_only_its_modifier_witness :
  exists n' w' pc',
    process passThroughNode runWorld (testProcessContext (stereoDest 1%float))
    = Some (n', w', pc')
    /\ nodes w' = nodes runWorld
    /\ countDeinitialise 0%nat (calls w') = 0%nat.
Proof.
  destruct (process passThroughNode runWorld (testProcessContext (stereoDest 1%float)))
    as [[[n' w'] pc']|] eqn:Hp.
  - destruct (process_touches_only_its_modifier
                (modifierClass := TestModifier_Modifier)
                passThroughNode n' runWorld w'
                (testProcessContext (stereoDest 1%float)) pc' Hp)
      as (Hn & _ & _ & _ & _ & Hc & _).
    exists n', w', pc'. split; [reflexivity|]. split; [exact Hn|]. apply Hc.
  - vm_compute in Hp. discriminate Hp.
Defined.

(** X15.  Run on a modifier that leaves its buffers as it finds them,
    [process] publishes what it publishes when the modifier is skipped: the
    copy-through audio and the staged MIDI list.  Nothing is lost on the way
    to the modifier and back. *)
Theorem transparent_modifier_passes_through {M : Type} {modifierClass : Modifier M}
    (n n' : ModifierNode) (w w' : World M) (pc pc' : ProcessContext) :
  let inputBuffers := Node_getProcessedOutput (nodes w (input n)) in
  process n w pc = Some (n', w', pc') ->
  transparent (modifiers w (modifier n)) ->
  n' = snd (stageMidi n w (midi inputBuffers))
  /\ audio (buffers pc')
     = copyInputsToOutputs (audio inputBuffers) (audio (buffers pc))
  /\ midi (buffers pc') = midiMessageArray (snd (stageMidi n w (midi inputBuffers))).
Proof.
  intros inputBuffers. unfold process. fold inputBuffers.
  pose proof (stageMidi_wiring n w (midi inputBuffers)) as (_ & Hmod & _).
  destruct (stageMidi n w (midi inputBuffers)) as [shouldProcess n1]. simpl in *.
  intros Hp Htr. destruct shouldProcess.
  - destruct (getPluginRenderContext n1 w _ _) as [rc|] eqn:Hrc; [|discriminate].
    pose proof (render_context_members n1 w _ _ rc Hrc) as (Hd & _ & _ & Hm & _).
    destruct (Htr rc) as [Hta Htm]. rewrite Hmod in Hp.
    destruct (applyToBuffer (modifiers w (modifier n)) rc) as [[m' destAfter] midiAfter].
    simpl in Hta, Htm. subst destAfter midiAfter. rewrite Hd, Hm in Hp.
    injection Hp as <- <- <-. simpl. unfold copyFrom.
    split; [destruct n1; reflexivity|].
    split; [|reflexivity].
    destruct (copyInputsToOutputs _ _). reflexivity.
  - injection Hp as <- <- <-. repeat split.
Qed.

Lemma testModifier_transparent (count : Z) (enabled : bool) :
  transparent (testModifier count enabled false).
Proof. intros rc. split; reflexivity. Defined.

Lemma transparent_modifier_passes_through_witness :
  exists n' w' pc',
    process passThroughNode runWorld (testProcessContext (stereoDest 1%float))
    = Some (n', w', pc')
    /\ audio (buffers pc') = copyInputsToOutputs monoInput (stereoDest 1%float)
    /\ midi (buffers pc') = testMidi false.
Proof.
  destruct (process passThroughNode runWorld (testProcessContext (stereoDest 1%float)))
    as [[[n' w'] pc']|] eqn:Hp.
  - destruct (transparent_modifier_passes_through
                (modifierClass := TestModifier_Modifier)
                passThroughNode n' runWorld w'
                (testProcessContext (stereoDest 1%float)) pc' Hp
                (testModifier_transparent 1 true))
      as (_ & Ha & Hm).
    exists n', w', pc'. split; [reflexivity|]. split; [exact Ha|exact Hm].
  - vm_compute in Hp. discriminate Hp.
Defined.

(** X16.  What a block publishes does not depend on what the scratch MIDI
    list held before: two nodes with the same wiring and the same automation
    adjustment time give the same outcome.  Nothing is carried over from one
    block to the next through the scratch list. *)
Theorem process_forgets_scratch_list {M : Type} {modifierClass : Modifier M}
    (n m : ModifierNode) (w : World M) (pc : ProcessContext) :
  sameWiring n m ->
  automationAdjustmentTime m = automationAdjustmentTime n ->
  process m w pc = process n w pc.
Proof.
  intros (H1 & H2 & H3 & H4 & H5 & H6 & H7 & H8) H9.
  assert (Hm : m = withMidiMessageArray n (midiMessageArray m)).
  { destruct m, n. simpl in *. subst. reflexivity. }
  rewrite Hm. reflexivity.
Qed.

Lemma process_forgets_scratch_list_witness :
  process (withMidiMessageArray passThroughNode (testMidi true)) runWorld
    (testProcessContext (stereoDest 1%float))
  = process passThroughNode runWorld (testProcessContext (stereoDest 1%float)).
Proof.
  apply (process_forgets_scratch_list (modifierClass := TestModifier_Modifier)).
  - apply withMidiMessageArray_wiring.
  - reflexivity.
Defined.

(** ** More on the copy-through *)

Lemma In_skipn {A : Type} (k : nat) (l : list A) (x : A) :
  In x (skipn k l) -> In x l.
Proof.
  intros H. rewrite <- (firstn_skipn k l). apply in_or_app. right. exact H.
Qed.

Lemma copyInputsToOutputs_wellFormed (inputAudioBlock outputAudioBlock : AudioBlock) :
  wellFormed inputAudioBlock ->
  wellFormed outputAudioBlock ->
  getNumFrames inputAudioBlock = getNumFrames outputAudioBlock ->
  wellFormed (copyInputsToOutputs inputAudioBlock outputAudioBlock).
Proof.
  intros Hin Hout Hframes. unfold wellFormed.
  rewrite (copyInputsToOutputs_truncates _ _ Hin Hout Hframes).
  destruct (copyInputsToOutputs_shape inputAudioBlock outputAudioBlock) as [Hf _].
  unfold getNumFrames in *. rewrite Hf.
  apply Forall_forall. intros c Hc. apply in_app_or in Hc. destruct Hc as [Hc|Hc].
  - rewrite <- Hframes. apply (proj1 (Forall_forall _ _) Hin).
    eapply In_firstn. exact Hc.
  - apply (proj1 (Forall_forall _ _) Hout). eapply In_skipn. exact Hc.
Qed.

(** X17.  The copy-through is idempotent: copying the same upstream audio
    once more into the block just written changes nothing. *)
Theorem copy_through_idempotent (inputAudioBlock outputAudioBlock : AudioBlock) :
  wellFormed inputAudioBlock ->
  wellFormed outputAudioBlock ->
  getNumFrames inputAudioBlock = getNumFrames outputAudioBlock ->
  copyInputsToOutputs inputAudioBlock
    (copyInputsToOutputs inputAudioBlock outputAudioBlock)
  = copyInputsToOutputs inputAudioBlock outputAudioBlock.
Proof.
  intros Hin Hout Hframes.
  pose proof (copyInputsToOutputs_wellFormed _ _ Hin Hout Hframes) as Hwf.
  destruct (copyInputsToOutputs_shape inputAudioBlock outputAudioBlock) as [Hf Hc].
  assert (Hframes' : getNumFrames inputAudioBlock
                     = getNumFrames (copyInputsToOutputs inputAudioBlock outputAudioBlock))
    by congruence.
  pose proof (copyInputsToOutputs_truncates _ _ Hin Hwf Hframes') as H2.
  pose proof (copyInputsToOutputs_truncates _ _ Hin Hout Hframes) as H1.
  destruct (copyInputsToOutputs_shape inputAudioBlock
              (copyInputsToOutputs inputAudioBlock outputAudioBlock)) as [Hf2 _].
  rewrite Hc in H2.
  assert (Hch : channels (copyInputsToOutputs inputAudioBlock
                            (copyInputsToOutputs inputAudioBlock outputAudioBlock))
                = channels (copyInputsToOutputs inputAudioBlock outputAudioBlock)).
  { rewrite H2, H1. f_equal. unfold getNumChannels.
    destruct (Nat.le_ge_cases (List.length (channels inputAudioBlock))
                (List.length (channels outputAudioBlock))) as [Hle|Hge].
    - rewrite (firstn_all2 (channels inputAudioBlock) Hle).
      rewrite skipn_app, skipn_all, Nat.sub_diag. reflexivity.
    - rewrite (skipn_all2 (channels outputAudioBlock) Hge).
      apply skipn_all2. rewrite length_app, length_firstn. simpl. lia. }
  destruct (copyInputsToOutputs inputAudioBlock
              (copyInputsToOutputs inputAudioBlock outputAudioBlock)) as [F2 c2].
  destruct (copyInputsToOutputs inputAudioBlock outputAudioBlock) as [F1 c1].
  unfold getNumFrames in *. simpl in *. congruence.
Qed.

Lemma copy_through_idempotent_witness :
  copyInputsToOutputs monoInput (copyInputsToOutputs monoInput (stereoDest 1%float))
  = copyInputsToOutputs monoInput (stereoDest 1%float).
Proof.
  exact (copy_through_idempotent monoInput (stereoDest 1%float)
           monoInput_wellFormed (stereoDest_wellFormed 1%float) eq_refl).
Defined.

(** X18.  When the upstream has at least as many channels as the
    destination, the copy-through is the upstream audio cut at the
    destination channel count: the surplus upstream channels are dropped
    and nothing of what the destination held survives; with equal channel
    counts the result is the upstream block itself. *)
Theorem copy_through_of_wide_upstream (inputAudioBlock outputAudioBlock : AudioBlock) :
  wellFormed inputAudioBlock ->
  wellFormed outputAudioBlock ->
  getNumFrames inputAudioBlock = getNumFrames outputAudioBlock ->
  (getNumChannels outputAudioBlock <= getNumChannels inputAudioBlock)%nat ->
  copyInputsToOutputs inputAudioBlock outputAudioBlock
  = getChannelRange inputAudioBlock 0 (getNumChannels outputAudioBlock)
  /\ (getNumChannels outputAudioBlock = getNumChannels inputAudioBlock ->
      copyInputsToOutputs inputAudioBlock outputAudioBlock = inputAudioBlock).
Proof.
  intros Hin Hout Hframes Hle.
  pose proof (copyInputsToOutputs_truncates _ _ Hin Hout Hframes) as Hch.
  destruct (copyInputsToOutputs_shape inputAudioBlock outputAudioBlock) as [Hf _].
  rewrite (skipn_all2 (channels outputAudioBlock)) in Hch by exact Hle.
  rewrite app_nil_r in Hch.
  assert (Heq : copyInputsToOutputs inputAudioBlock outputAudioBlock
                = getChannelRange inputAudioBlock 0 (getNumChannels outputAudioBlock)).
  { unfold getChannelRange. rewrite Nat.sub_0_r. simpl.
    destruct (copyInputsToOutputs inputAudioBlock outputAudioBlock) as [F c].
    unfold getNumFrames in *. simpl in *. congruence. }
  split; [exact Heq|].
  intros Hsame. rewrite Heq, Hsame. unfold getChannelRange, getNumChannels.
  rewrite Nat.sub_0_r. simpl. rewrite firstn_all.
  destruct inputAudioBlock. reflexivity.
Qed.

Lemma stereoInput_wellFormed : wellFormed stereoInput.
Proof. repeat constructor. Defined.

Lemma monoDest_wellFormed : wellFormed monoDest.
Proof. repeat constructor. Defined.

Lemma copy_through_of_wide_upstream_witness :
  copyInputsToOutputs stereoInput monoDest
  = getChannelRange stereoInput 0 (getNumChannels monoDest).
Proof.
  apply (copy_through_of_wide_upstream stereoInput monoDest
           stereoInput_wellFormed monoDest_wellFormed eq_refl).
  unfold getNumChannels. simpl. lia.
Defined.

(** ** Construction and destruction *)

(** X19.  At any moment of the life of a node built by either constructor,
    the node is initialised and hosts the modifier it was given, so the
    destructor calls [baseClassDeinitialise] exactly when the modifier
    reports, at that moment, that it does not need initialising; it
    records no other call. *)
Theorem destructor_follows_modifier_report {M : Type} {modifierClass : Modifier M}
    (inputNode modifierToProcess : Addr) (sampleRateToUse : double)
    (blockSizeToUse : Z) (trackMuteStateToUse contextProvider : option Addr)
    (playHeadStateToUse : Addr) (rendering : bool) (w0 : World M)
    (script : list (World M * Op)) :
  let destroys (n : ModifierNode) :=
    isInitialised n = true
    /\ modifier n = modifierToProcess
    /\ forall w : World M,
         calls (destroy n w)
         = calls w
           ++ (if baseClassNeedsInitialising (modifiers w modifierToProcess)
               then []
               else [CallDeinitialise modifierToProcess]) in
  Forall destroys
    (lifetime
       (fst (ModifierNode_withPlayHead inputNode modifierToProcess sampleRateToUse
               blockSizeToUse trackMuteStateToUse playHeadStateToUse rendering w0))
       script)
  /\ Forall destroys
       (lifetime
          (fst (ModifierNode_withProvider inputNode modifierToProcess sampleRateToUse
                  blockSizeToUse contextProvider w0))
          script).
Proof.
  intros destroys.
  split; (eapply Forall_impl; [|apply lifetime_wiring]);
    intros n (_ & Hm & _ & _ & _ & _ & Hi & _); simpl in Hm, Hi;
    (split; [exact Hi|split; [exact Hm|]]);
    intros w; unfold destroy; rewrite Hi, Hm;
    destruct (baseClassNeedsInitialising _); simpl;
    try reflexivity; apply eq_sym, app_nil_r.
Qed.


(** ** The automation offset over time *)

Lemma process_automation {M : Type} {modifierClass : Modifier M}
    (n n' : ModifierNode) (w w' : World M) (pc pc' : ProcessContext) :
  process n w pc = Some (n', w', pc') ->
  automationAdjustmentTime n' = automationAdjustmentTime n.
Proof.
  unfold process.
  pose proof (stageMidi_automation n w
                (midi (Node_getProcessedOutput (nodes w (input n))))) as Hs.
  destruct (stageMidi _ _ _) as [shouldProcess n1]. simpl in Hs.
  destruct shouldProcess.
  - destruct (getPluginRenderContext _ _ _ _) as [rc|]; [|discriminate].
    destruct (applyToBuffer _ _) as [[m' destAfter] midiAfter].
    intros H. injection H as <- _ _. destruct midiAfter; exact Hs.
  - intros H. injection H as <- _ _. exact Hs.
Qed.

Lemma lifetime_keeps_offset {M : Type} {modifierClass : Modifier M}
    (script : list (World M * Op)) (n : ModifierNode) :
  forallb (keepsOffset (input n)) script = true ->
  Forall (fun n' => automationAdjustmentTime n' = automationAdjustmentTime n)
    (lifetime n script).
Proof.
  revert n. induction script as [|[w op] rest IH]; intros n Hk; simpl.
  - constructor; [reflexivity|constructor].
  - constructor; [reflexivity|].
    simpl in Hk. apply andb_true_iff in Hk. destruct Hk as [Hop Hrest].
    destruct (step n w op) as [n'|] eqn:Hs; [|constructor].
    assert (Hoff : automationAdjustmentTime n' = automationAdjustmentTime n).
    { destruct op as [|info|pc]; simpl in Hs.
      - injection Hs as <-. reflexivity.
      - injection Hs as <-. unfold keepsOffset in Hop. simpl in Hop.
        rewrite prepareToPlay_unchanged; [reflexivity|].
        apply Z.leb_le. exact Hop.
      - destruct (process n w pc) as [[[n1 w1] pc1]|] eqn:Hp; [|discriminate].
        injection Hs as <-. eapply process_automation. exact Hp. }
    apply step_wiring in Hs. destruct Hs as (Hin & _).
    rewrite <- Hin in Hrest.
    eapply Forall_impl; [|apply IH; exact Hrest].
    intros a Ha. congruence.
Qed.

(** X21.  The offset set by [prepareToPlay] outlives later calls.  On a node
    built with a play head state and prepared behind an upstream latency of
    [L > 0] samples, after any further calls of [process] and
    [getNodeProperties], and calls of [prepareToPlay] that find no upstream
    latency, the automation adjustment time still is [-(L / sampleRate)],
    and every render context has the mapped timeline position in seconds
    minus [L / sampleRate] as its edit time. *)
Theorem offset_outlives_later_calls {M : Type} {modifierClass : Modifier M}
    (inputNode modifierToProcess : Addr) (sampleRateToUse : double)
    (blockSizeToUse : Z) (trackMuteStateToUse : option Addr)
    (playHeadStateToUse : Addr) (rendering : bool) (w0 wp : World M)
    (info : PlaybackInitialisationInfo) (L : Z) (script : list (World M * Op)) :
  let built :=
    fst (ModifierNode_withPlayHead inputNode modifierToProcess sampleRateToUse
           blockSizeToUse trackMuteStateToUse playHeadStateToUse rendering w0) in
  latencyNumSamples (Node_getNodeProperties (nodes wp inputNode)) = L ->
  0 < L ->
  forallb (keepsOffset inputNode) script = true ->
  Forall
    (fun n =>
       automationAdjustmentTime n
       = PrimFloat.opp (PrimFloat.div (double_of_Z L) sampleRateToUse)
       /\ forall (w : World M) (R : Z) (destBuffer : AudioBuffer),
            exists rc,
              getPluginRenderContext n w R destBuffer = Some rc
              /\ rc_editTime rc
                 = PrimFloat.sub
                     (sampleToTime
                        (referenceSamplePositionToTimelinePosition
                           (playHead (playHeadStates w playHeadStateToUse)) R)
                        sampleRateToUse)
                     (PrimFloat.div (double_of_Z L) sampleRateToUse))
    (lifetime (prepareToPlay built wp info) script).
Proof.
  intros built HL Hpos Hscript.
  assert (Hprep : prepareToPlay built wp info
                  = withAutomationAdjustmentTime built
                      (PrimFloat.opp (sampleToTime L sampleRateToUse))).
  { unfold prepareToPlay. rewrite getNodeProperties_latency.
    change (input built) with inputNode. rewrite HL.
    destruct (Z.ltb_spec 0 L); [reflexivity|lia]. }
  apply Forall_forall. intros n Hn.
  pose proof (proj1 (Forall_forall _ _)
                (lifetime_wiring script (prepareToPlay built wp info)) n Hn)
    as (_ & _ & Hprov & _ & Hph & _ & _ & Hsr).
  assert (Hoff : automationAdjustmentTime n
                 = PrimFloat.opp (sampleToTime L sampleRateToUse)).
  { pose proof (lifetime_keeps_offset script (prepareToPlay built wp info)) as Hk.
    rewrite Hprep in Hk at 1. specialize (Hk Hscript).
    rewrite (proj1 (Forall_forall _ _) Hk n Hn). rewrite Hprep. reflexivity. }
  rewrite Hprep in Hprov, Hph, Hsr. simpl in Hprov, Hph, Hsr.
  split; [exact Hoff|].
  intros w R destBuffer. unfold getPluginRenderContext.
  rewrite Hprov, Hph. eexists. split; [reflexivity|].
  simpl. rewrite Hoff, Hsr. apply add_opp_is_sub.
Qed.

Lemma offset_outlives_later_calls_witness :
  Forall
    (fun n =>
       automationAdjustmentTime n
       = PrimFloat.opp (PrimFloat.div (double_of_Z 16) 44100%float)
       /\ forall (w : World TestModifier) (R : Z) (destBuffer : AudioBuffer),
            exists rc,
              getPluginRenderContext n w R destBuffer = Some rc
              /\ rc_editTime rc
                 = PrimFloat.sub
                     (sampleToTime
                        (referenceSamplePositionToTimelinePosition
                           (playHead (playHeadStates w 0%nat)) R)
                        44100%float)
                     (PrimFloat.div (double_of_Z 16) 44100%float))
    (lifetime (prepareToPlay latencyNode latencyWorld latencyInfo) laterCalls).
Proof.
  apply (offset_outlives_later_calls (modifierClass := TestModifier_Modifier)
           0%nat 0%nat 44100%float 512 None 0%nat false latencyWorld latencyWorld
           latencyInfo 16 laterCalls eq_refl eq_refl eq_refl).
Defined.

Example offset_outlives_later_calls_example :
  map automationAdjustmentTime
    (lifetime (prepareToPlay latencyNode latencyWorld latencyInfo) laterCalls)
  = repeat (PrimFloat.opp (PrimFloat.div 16%float 44100%float)) 4.
Proof. vm_compute. reflexivity. Qed.
